(** * The program recommender of [recommendation_engine.py]

    A shallow embedding of [ProgramRecommender.generate_recommendations] and of
    the printing loop of [main], together with the parts of scikit-learn and
    NumPy the method calls: [TfidfVectorizer(stop_words='english')],
    [cosine_similarity] and [ndarray.argmax(axis=1)].

    Conventions of the embedding.
    - A program is a JSON object whose values are texts; it is kept as an
      association list from keys to texts.  Texts are ASCII strings.
    - [print] is modelled by a log of notes returned next to the result.
    - A Python exception is the [Raised] case of [outcome].
    - The numbers of the TF-IDF matrix and of the similarity matrix are real
      numbers ([R]); the rounding of [float64] is not modelled.  The theorems
      about the method on every input are stated through what [argmax] does
      with a row, through entries that are zero and through the sign of
      entries, which rounding does not change.  The lemmas on exact ties and
      on the bound one of a cosine hold of the real-valued matrices; they
      serve to evaluate the method on the example catalogs, where the rows
      compared come from equal term counts or lie far apart. *)

From Stdlib Require Import List String Ascii Bool Arith ZArith Lia.
From Stdlib Require Import Reals Lra.
Import ListNotations.

Local Open Scope string_scope.
Local Open Scope list_scope.

(** ** Exceptions and results *)

Inductive exn : Type :=
| ValueError (msg : string)
| KeyError (key : string)
| IndexError (msg : string).

Inductive outcome (A : Type) : Type :=
| Returned (a : A)
| Raised (e : exn).

Arguments Returned {A} a.
Arguments Raised {A} e.

Definition bind {A B : Type} (x : outcome A) (f : A -> outcome B) : outcome B :=
  match x with
  | Returned a => f a
  | Raised e => Raised e
  end.

Notation "x <- c ;; k" := (bind c (fun x => k))
  (at level 61, c at next level, right associativity).

Fixpoint traverse {A B : Type} (f : A -> outcome B) (l : list A) : outcome (list B) :=
  match l with
  | [] => Returned []
  | a :: t => b <- f a ;; bs <- traverse f t ;; Returned (b :: bs)
  end.

(** ** Text analysis of [TfidfVectorizer(stop_words='english')]

    The default analyzer lowercases the document, takes the matches of the
    token pattern [(?u)\b\w\w+\b] (maximal runs of at least two word
    characters) and drops the tokens of the English stop list. *)

Module Text.

Definition is_word_char (c : ascii) : bool :=
  let n := nat_of_ascii c in
  (Nat.leb 48 n && Nat.leb n 57)
  || (Nat.leb 65 n && Nat.leb n 90)
  || (Nat.leb 97 n && Nat.leb n 122)
  || Nat.eqb n 95.

Definition lower_char (c : ascii) : ascii :=
  let n := nat_of_ascii c in
  if Nat.leb 65 n && Nat.leb n 90 then ascii_of_nat (n + 32) else c.

Fixpoint lower (s : string) : string :=
  match s with
  | EmptyString => EmptyString
  | String c s' => String (lower_char c) (lower s')
  end.

(** A finished run of word characters is a token when it has two characters
    or more. *)
Definition emit (run : string) : list string :=
  if Nat.leb 2 (String.length run) then [run] else [].

Fixpoint findall_from (run : string) (s : string) : list string :=
  match s with
  | EmptyString => emit run
  | String c s' =>
      if is_word_char c
      then findall_from (run ++ String c EmptyString) s'
      else emit run ++ findall_from EmptyString s'
  end.

(** [token_pattern.findall] *)
Definition tokenize (s : string) : list string := findall_from EmptyString s.

(** scikit-learn's [ENGLISH_STOP_WORDS]. *)
Definition ENGLISH_STOP_WORDS : list string :=
  [ "a"; "about"; "above"; "across"; "after"; "afterwards"; "again";
    "against"; "all"; "almost"; "alone"; "along"; "already"; "also";
    "although"; "always"; "am"; "among"; "amongst"; "amoungst"; "amount";
    "an"; "and"; "another"; "any"; "anyhow"; "anyone"; "anything"; "anyway";
    "anywhere"; "are"; "around"; "as"; "at"; "back"; "be"; "became";
    "because"; "become"; "becomes"; "becoming"; "been"; "before";
    "beforehand"; "behind"; "being"; "below"; "beside"; "besides";
    "between"; "beyond"; "bill"; "both"; "bottom"; "but"; "by"; "call";
    "can"; "cannot"; "cant"; "co"; "con"; "could"; "couldnt"; "cry"; "de";
    "describe"; "detail"; "do"; "done"; "down"; "due"; "during"; "each";
    "eg"; "eight"; "either"; "eleven"; "else"; "elsewhere"; "empty";
    "enough"; "etc"; "even"; "ever"; "every"; "everyone"; "everything";
    "everywhere"; "except"; "few"; "fifteen"; "fifty"; "fill"; "find";
    "fire"; "first"; "five"; "for"; "former"; "formerly"; "forty"; "found";
    "four"; "from"; "front"; "full"; "further"; "get"; "give"; "go"; "had";
    "has"; "hasnt"; "have"; "he"; "hence"; "her"; "here"; "hereafter";
    "hereby"; "herein"; "hereupon"; "hers"; "herself"; "him"; "himself";
    "his"; "how"; "however"; "hundred"; "i"; "ie"; "if"; "in"; "inc";
    "indeed"; "interest"; "into"; "is"; "it"; "its"; "itself"; "keep";
    "last"; "latter"; "latterly"; "least"; "less"; "ltd"; "made"; "many";
    "may"; "me"; "meanwhile"; "might"; "mill"; "mine"; "more"; "moreover";
    "most"; "mostly"; "move"; "much"; "must"; "my"; "myself"; "name";
    "namely"; "neither"; "never"; "nevertheless"; "next"; "nine"; "no";
    "nobody"; "none"; "noone"; "nor"; "not"; "nothing"; "now"; "nowhere";
    "of"; "off"; "often"; "on"; "once"; "one"; "only"; "onto"; "or";
    "other"; "others"; "otherwise"; "our"; "ours"; "ourselves"; "out";
    "over"; "own"; "part"; "per"; "perhaps"; "please"; "put"; "rather";
    "re"; "same"; "see"; "seem"; "seemed"; "seeming"; "seems"; "serious";
    "several"; "she"; "should"; "show"; "side"; "since"; "sincere"; "six";
    "sixty"; "so"; "some"; "somehow"; "someone"; "something"; "sometime";
    "sometimes"; "somewhere"; "still"; "such"; "system"; "take"; "ten";
    "than"; "that"; "the"; "their"; "them"; "themselves"; "then"; "thence";
    "there"; "thereafter"; "thereby"; "therefore"; "therein"; "thereupon";
    "these"; "they"; "thick"; "thin"; "third"; "this"; "those"; "though";
    "three"; "through"; "throughout"; "thru"; "thus"; "to"; "together";
    "too"; "top"; "toward"; "towards"; "twelve"; "twenty"; "two"; "un";
    "under"; "until"; "up"; "upon"; "us"; "very"; "via"; "was"; "we";
    "well"; "were"; "what"; "whatever"; "when"; "whence"; "whenever";
    "where"; "whereafter"; "whereas"; "whereby"; "wherein"; "whereupon";
    "wherever"; "whether"; "which"; "while"; "whither"; "who"; "whoever";
    "whole"; "whom"; "whose"; "why"; "will"; "with"; "within"; "without";
    "would"; "yet"; "you"; "your"; "yours"; "yourself"; "yourselves" ].

Definition is_stop_word (w : string) : bool :=
  existsb (String.eqb w) ENGLISH_STOP_WORDS.

(** [build_analyzer()]: preprocess, tokenize, remove the stop words. *)
Definition analyze (doc : string) : list string :=
  filter (fun w => negb (is_stop_word w)) (tokenize (lower doc)).

(** The vocabulary is kept sorted and free of duplicates, as
    [CountVectorizer._sort_features] leaves it. *)
Fixpoint vocab_insert (t : string) (v : list string) : list string :=
  match v with
  | [] => [t]
  | u :: v' =>
      if String.eqb t u then v
      else if String.ltb t u then t :: v
      else u :: vocab_insert t v'
  end.

Definition build_vocabulary (analyzed : list (list string)) : list string :=
  fold_left (fun v t => vocab_insert t v) (List.concat analyzed) [].

End Text.

(** ** Programs

    A program is the dictionary [json.load] builds for one catalog entry. *)

Definition program : Type := list (string * string).

(** [p[key]] when present. *)
Fixpoint lookup (key : string) (p : program) : option string :=
  match p with
  | [] => None
  | (k, v) :: p' => if String.eqb key k then Some v else lookup key p'
  end.

(** [p.get(key, default)] *)
Definition get (p : program) (key default : string) : string :=
  match lookup key p with
  | Some v => v
  | None => default
  end.

(** [p[key]], which raises [KeyError] on a missing key. *)
Definition subscript (p : program) (key : string) : outcome string :=
  match lookup key p with
  | Some v => Returned v
  | None => Raised (KeyError key)
  end.

(** [f"{p.get('name', '')} {p.get('category', '')} {p.get('notes', '')}"] *)
Definition description (p : program) : string :=
  (get p "name" "" ++ " " ++ get p "category" "" ++ " " ++ get p "notes" "")%string.

(** [p.get('category') in user_categories]: a missing category is [None],
    which is no member of a list of texts. *)
Definition in_categories (category : option string) (user_categories : list string) : bool :=
  match category with
  | Some c => existsb (String.eqb c) user_categories
  | None => false
  end.

(** ** TF-IDF vectors, cosine similarity and argmax *)

Module Numeric.

Local Open Scope R_scope.

Fixpoint dot (a b : list R) : R :=
  match a, b with
  | x :: a', y :: b' => x * y + dot a' b'
  | _, _ => 0
  end.

(** [sklearn.preprocessing.normalize(X, norm='l2')] on one row: a row of norm
    zero is left as it is. *)
Definition l2_normalize (row : list R) : list R :=
  let s := dot row row in
  if Req_dec_T s 0 then row else map (fun x => x / sqrt s) row.

(** Occurrences of each vocabulary term among the tokens of a document. *)
Definition term_counts (vocabulary : list string) (tokens : list string) : list nat :=
  map (fun t => count_occ string_dec tokens t) vocabulary.

(** Number of documents a term occurs in. *)
Definition document_frequency (analyzed : list (list string)) (t : string) : nat :=
  List.length (filter (fun tokens => existsb (String.eqb t) tokens) analyzed).

(** [TfidfTransformer(smooth_idf=True)]: [ln((1 + n) / (1 + df)) + 1]. *)
Definition idf (n_samples df : nat) : R :=
  ln (INR (1 + n_samples) / INR (1 + df)) + 1.

Record TfidfVectorizer : Type := {
  vocabulary_ : list string;
  idf_ : list R
}.

(** [fit]: learn the vocabulary and the idf weights; an empty vocabulary is
    refused by [CountVectorizer._count_vocab]. *)
Definition fit (raw_documents : list string) : outcome TfidfVectorizer :=
  let analyzed := map Text.analyze raw_documents in
  match Text.build_vocabulary analyzed with
  | [] =>
      Raised (ValueError "empty vocabulary; perhaps the documents only contain stop words")
  | t :: ts =>
      Returned {| vocabulary_ := t :: ts;
                  idf_ := map (fun u => idf (List.length raw_documents)
                                            (document_frequency analyzed u)) (t :: ts) |}
  end.

(** Term counts weighted column by column. *)
Fixpoint scale (counts : list nat) (weights : list R) : list R :=
  match counts, weights with
  | c :: counts', w :: weights' => INR c * w :: scale counts' weights'
  | _, _ => []
  end.

Definition transform_one (v : TfidfVectorizer) (doc : string) : list R :=
  l2_normalize (scale (term_counts (vocabulary_ v) (Text.analyze doc)) (idf_ v)).

(** [transform]: one L2-normalised row per document. *)
Definition transform (v : TfidfVectorizer) (raw_documents : list string) : list (list R) :=
  map (transform_one v) raw_documents.

Definition fit_transform (raw_documents : list string)
  : outcome (TfidfVectorizer * list (list R)) :=
  v <- fit raw_documents ;; Returned (v, transform v raw_documents).

(** [sklearn.metrics.pairwise.cosine_similarity(X, Y)]: both arguments are
    normalised by rows, then multiplied. *)
Definition cosine_similarity (X Y : list (list R)) : list (list R) :=
  let X_normalized := map l2_normalize X in
  let Y_normalized := map l2_normalize Y in
  map (fun x => map (fun y => dot x y) Y_normalized) X_normalized.

(** [argmax] keeps the first position of the largest value. *)
Fixpoint argmax_from (best : R) (best_i i : nat) (row : list R) : nat :=
  match row with
  | [] => best_i
  | x :: row' =>
      if Rlt_dec best x
      then argmax_from x i (S i) row'
      else argmax_from best best_i (S i) row'
  end.

Definition argmax (row : list R) : outcome nat :=
  match row with
  | [] => Raised (ValueError "attempt to get argmax of an empty sequence")
  | x :: row' => Returned (argmax_from x 0 1 row')
  end.

(** [m.argmax(axis=1)] *)
Definition argmax_axis1 (m : list (list R)) : outcome (list nat) :=
  traverse argmax m.

End Numeric.

(** ** The recommender *)

(** [l[:stop]]: a negative [stop] counts from the end of the list. *)
Definition slice_to {A : Type} (l : list A) (stop : Z) : list A :=
  if (0 <=? stop)%Z
  then firstn (Z.to_nat stop) l
  else firstn (Z.to_nat (Z.of_nat (List.length l) + stop)) l.

(** [l[i]] for an index that is not negative. *)
Definition getitem {A : Type} (l : list A) (i : nat) : outcome A :=
  match nth_error l i with
  | Some a => Returned a
  | None => Raised (IndexError "list index out of range")
  end.

(** What the method prints. *)
Inductive note : Type :=
| NoProgramsAvailable
| MatchingPrograms (user_categories : list string) (category_matches : list program)
| NoProgramsFound (user_categories : list string).

Definition category_matches (programs : list program) (user_categories : list string)
  : list program :=
  filter (fun p => in_categories (lookup "category" p) user_categories) programs.

(** [ProgramRecommender.generate_recommendations], with [self.programs] passed
    as [programs].  The first component is what was printed, in order. *)
Definition generate_recommendations
  (programs : list program) (user_categories : list string) (top_n : Z)
  : list note * outcome (list program) :=
  match programs with
  | [] => ([NoProgramsAvailable], Returned [])
  | _ :: _ =>
      let descriptions := map description programs in
      match Numeric.fit_transform descriptions with
      | Raised e => ([], Raised e)
      | Returned (vectorizer, tfidf_matrix) =>
          let matches := category_matches programs user_categories in
          let printed := [MatchingPrograms user_categories matches] in
          match matches with
          | [] => (printed ++ [NoProgramsFound user_categories], Returned [])
          | _ :: _ =>
              let category_descriptions := map description matches in
              let category_tfidf := Numeric.transform vectorizer category_descriptions in
              let similarities := Numeric.cosine_similarity category_tfidf tfidf_matrix in
              (printed,
               similar_program_indices <- Numeric.argmax_axis1 similarities ;;
               traverse (getitem programs) (slice_to similar_program_indices top_n))
          end
      end
  end.

(** The value the method returns or the exception it raises. *)
Definition recommend (programs : list program) (user_categories : list string) (top_n : Z)
  : outcome (list program) :=
  snd (generate_recommendations programs user_categories top_n).

(** ** The printing loop of [main] *)

(** The f-string of the loop: the three fields are read by subscript, from
    left to right. *)
Definition format_program (p : program) : outcome string :=
  name <- subscript p "name" ;;
  category <- subscript p "category" ;;
  venue <- subscript p "venue" ;;
  Returned ("Program Name: " ++ name ++ ", Category: " ++ category
            ++ ", Venue: " ++ venue)%string.

(** Lines printed before an exception stay printed. *)
Fixpoint print_programs (recommended : list program) : list string * outcome unit :=
  match recommended with
  | [] => ([], Returned tt)
  | p :: rest =>
      match format_program p with
      | Raised e => ([], Raised e)
      | Returned line =>
          let '(lines, r) := print_programs rest in (line :: lines, r)
      end
  end.

Definition print_recommendations (recommended : list program)
  : list string * outcome unit :=
  match recommended with
  | [] => (["No recommendations available."], Returned tt)
  | _ :: _ => print_programs recommended
  end.

(** ** Intermediate values of the method

    The values the method holds at lines 49, 73 and 76, as functions of its
    inputs; they name what the properties below speak about. *)

(** The vocabulary the vectorizer learns from the catalog (line 49). *)
Definition vocabulary_of (programs : list program) : list string :=
  Text.build_vocabulary (map Text.analyze (map description programs)).

(** The term counts of a program's description over that vocabulary. *)
Definition counts_of (programs : list program) (p : program) : list nat :=
  Numeric.term_counts (vocabulary_of programs) (Text.analyze (description p)).

(** [similarities] (line 73): one row per category match, one column per
    program of the catalog. *)
Definition similarities (programs : list program) (user_categories : list string)
  : outcome (list (list R)) :=
  match Numeric.fit_transform (map description programs) with
  | Raised e => Raised e
  | Returned (vectorizer, tfidf_matrix) =>
      let matches := category_matches programs user_categories in
      Returned (Numeric.cosine_similarity
                  (Numeric.transform vectorizer (map description matches))
                  tfidf_matrix)
  end.

(** [similar_program_indices] (line 76). *)
Definition similar_program_indices (programs : list program) (user_categories : list string)
  : outcome (list nat) :=
  S <- similarities programs user_categories ;; Numeric.argmax_axis1 S.

(** The vectorizer [fit] returns on a catalog whose vocabulary is not empty. *)
Definition vectorizer_of (programs : list program) : Numeric.TfidfVectorizer :=
  let docs := map description programs in
  let analyzed := map Text.analyze docs in
  {| Numeric.vocabulary_ := vocabulary_of programs;
     Numeric.idf_ := map (fun u => Numeric.idf (List.length docs)
                                     (Numeric.document_frequency analyzed u))
                         (vocabulary_of programs) |}.

(** The row [transform] gives a program. *)
Definition tfidf_row (programs : list program) (p : program) : list R :=
  Numeric.transform_one (vectorizer_of programs) (description p).

(** One entry of [similarities]. *)
Definition similarity (programs : list program) (p q : program) : R :=
  Numeric.dot (Numeric.l2_normalize (tfidf_row programs p))
              (Numeric.l2_normalize (tfidf_row programs q)).

(** The similarity row of a category match. *)
Definition similarity_row (programs : list program) (p : program) : list R :=
  map (similarity programs p) programs.

(** [argmax] on a row that is not empty. *)
Definition argmax_index (row : list R) : nat :=
  match row with
  | [] => 0
  | x :: row' => Numeric.argmax_from x 0 1 row'
  end.

(** The catalog index chosen for a category match. *)
Definition best_index (programs : list program) (p : program) : nat :=
  argmax_index (similarity_row programs p).

(** ** Vocabulary of the properties *)

(** [i] is the first position of [row] that holds its largest value. *)
Definition first_max (row : list R) (i : nat) : Prop :=
  exists x, nth_error row i = Some x
    /\ (forall j y, nth_error row j = Some y -> (y <= x)%R)
    /\ (forall j y, (j < i)%nat -> nth_error row j = Some y -> (y < x)%R).

(** A vector of counts with a term in it. *)
Definition nonzerob (c : list nat) : bool :=
  existsb (fun x => negb (Nat.eqb x 0)) c.

(** All 2x2 minors of the two count vectors vanish. *)
Definition collinearb (c d : list nat) : bool :=
  forallb (fun sd : nat * nat =>
    forallb (fun td : nat * nat =>
      Nat.eqb (fst sd * snd td) (fst td * snd sd)) (combine c d)) (combine c d).

(** Two count vectors that are not zero and point the same way: their
    normalised TF-IDF rows are equal. *)
Definition same_direction (c d : list nat) : bool :=
  nonzerob c && nonzerob d && collinearb c d.

(** A list of categories without its repeated labels (first occurrences are
    kept). *)
Fixpoint remove_duplicates_from (seen l : list string) : list string :=
  match l with
  | [] => []
  | c :: l' =>
      if existsb (String.eqb c) seen
      then remove_duplicates_from seen l'
      else c :: remove_duplicates_from (c :: seen) l'
  end.

Definition remove_duplicates (l : list string) : list string :=
  remove_duplicates_from [] l.

(** A program has the three fields the printing loop reads. *)
Definition printable (p : program) : Prop :=
  lookup "name" p <> None /\ lookup "category" p <> None /\ lookup "venue" p <> None.

(** The [k]-th record of [l] is the best match of the [k]-th category match:
    the catalog record at the first position that holds the largest value of
    the [k]-th row of [similarities]. *)
Definition in_candidate_order
  (programs : list program) (user_categories : list string) (l : list program) : Prop :=
  forall k r, nth_error l k = Some r ->
    exists p i row S,
      similarities programs user_categories = Returned S
      /\ nth_error (category_matches programs user_categories) k = Some p
      /\ nth_error S k = Some row
      /\ first_max row i
      /\ nth_error programs i = Some r.


(** ** Catalogs used as examples *)

Definition yoga : program :=
  [("name", "Yoga"); ("category", "fitness"); ("notes", "morning class"); ("venue", "Gym A")].
Definition pilates : program :=
  [("name", "Pilates"); ("category", "fitness"); ("notes", "evening class"); ("venue", "Gym B")].
Definition chess_club : program :=
  [("name", "Chess Club"); ("category", "games"); ("notes", "weekly meetup"); ("venue", "Hall C")].

(** Scenario A of the specification. *)
Definition scenario_A : list program := [yoga; pilates; chess_club].


(** A record whose description holds stop words only. *)
Definition stop_words_only : program := [("name", "The"); ("category", "and")].

(** Two records with the same words in another order. *)
Definition yoga_class : program := [("name", "Yoga Class"); ("category", "fitness")].
Definition class_yoga : program := [("name", "Class Yoga"); ("category", "fitness")].

(** Two records of different categories with the same words. *)
Definition fitness_games : program := [("name", "Fitness"); ("category", "games")].
Definition games_fitness : program := [("name", "Games"); ("category", "fitness")].

(** A record without a name. *)
Definition nameless : program := [("category", "fitness"); ("venue", "Gym A")].

(** Two programs with the same category and, up to the case of letters, the
    same description; their other fields are free. *)
Definition same_text (p p' : program) : Prop :=
  Text.lower (description p) = Text.lower (description p')
  /\ lookup "category" p = lookup "category" p'.

(** Scenario A with other venues and other letter cases. *)
Definition scenario_A_relabelled : list program :=
  [ [("name", "YOGA"); ("category", "fitness"); ("notes", "Morning Class"); ("venue", "Studio 1")];
    [("venue", "Studio 2"); ("notes", "evening CLASS"); ("category", "fitness"); ("name", "pilates")];
    [("name", "chess club"); ("category", "games"); ("notes", "Weekly Meetup")] ].

(** ** The rest of the program: construction, loading and [main] *)

(** [ProgramRecommender.__init__]: [self.programs = programs or []], as a
    value ([None] and the empty list both give the empty catalog). *)
Definition init_programs (programs : option (list program)) : list program :=
  match programs with
  | Some (p :: ps) => p :: ps
  | Some [] => []
  | None => []
  end.

(** The object a JSON file parses to, with values of one type.  Opening and
    parsing the file are not modelled: the functions below start from what
    [json.load] returned. *)
Definition document (V : Type) : Type := list (string * V).

Fixpoint find_key {V : Type} (key : string) (d : document V) : option V :=
  match d with
  | [] => None
  | (k, v) :: d' => if String.eqb key k then Some v else find_key key d'
  end.

(** [d[key]] *)
Definition getkey {V : Type} (d : document V) (key : string) : outcome V :=
  match find_key key d with
  | Some v => Returned v
  | None => Raised (KeyError key)
  end.

(** [load_program_data]: [json.load(f)['programs']]. *)
Definition load_program_data (programs_json : document (list program))
  : outcome (list program) :=
  getkey programs_json "programs".

(** [load_user_preferences]: [json.load(f)]. *)
Definition load_user_preferences (preferences_json : document (list string))
  : document (list string) :=
  preferences_json.

(** [--top_n], an integer that defaults to 5. *)
Definition top_n_argument (given : option Z) : Z :=
  match given with
  | Some n => n
  | None => 5%Z
  end.

(** Standard output: the notes of the method and the lines of [main]. *)
Inductive printed : Type :=
| Note (n : note)
| Line (s : string).

(** [main], from the parsed files and the [--top_n] argument. *)
Definition main
  (programs_json : document (list program)) (preferences_json : document (list string))
  (top_n : option Z) : list printed * outcome unit :=
  match load_program_data programs_json with
  | Raised e => ([], Raised e)
  | Returned program_data =>
      let user_preferences := load_user_preferences preferences_json in
      let recommender_programs := init_programs (Some program_data) in
      match getkey user_preferences "preferred_categories" with
      | Raised e => ([], Raised e)
      | Returned preferred_categories =>
          let '(notes, result) :=
            generate_recommendations recommender_programs preferred_categories
                                     (top_n_argument top_n) in
          match result with
          | Raised e => (map Note notes, Raised e)
          | Returned recommended_programs =>
              let '(lines, r) := print_recommendations recommended_programs in
              (map Note notes ++ map Line lines, r)
          end
      end
  end.

(** The lines of [main] among what was printed. *)
Fixpoint lines_of (out : list printed) : list string :=
  match out with
  | [] => []
  | Note _ :: out' => lines_of out'
  | Line s :: out' => s :: lines_of out'
  end.

(** The line of a program that has its three fields. *)
Definition program_line (p : program) : string :=
  ("Program Name: " ++ get p "name" "" ++ ", Category: " ++ get p "category" ""
   ++ ", Venue: " ++ get p "venue" "")%string.

Definition printableb (p : program) : bool :=
  match lookup "name" p, lookup "category" p, lookup "venue" p with
  | Some _, Some _, Some _ => true
  | _, _, _ => false
  end.

(** The records before the first one that lacks a field. *)
Fixpoint printable_prefix (l : list program) : list program :=
  match l with
  | [] => []
  | p :: l' => if printableb p then p :: printable_prefix l' else []
  end.

(** The two files of Scenario A. *)
Definition scenario_A_json : document (list program) := [("programs", scenario_A)].
Definition fitness_json : document (list string) := [("preferred_categories", ["fitness"])].

(** ** The catalog as a shared list object

    [__init__] keeps the list it is given (when it is not empty) and
    [add_program] appends to it in place, so the caller's list and the
    recommender's list can be one object.  Lists live in a heap and are named
    by their position in it. *)

Module Objects.

Definition ref : Type := nat.
Definition heap : Type := list (list program).

Definition deref (h : heap) (r : ref) : list program := nth r h [].

(** In-place update of the list at [r]. *)
Fixpoint assign (h : heap) (r : ref) (l : list program) : heap :=
  match h, r with
  | [], _ => []
  | _ :: h', O => l :: h'
  | x :: h', S r' => x :: assign h' r' l
  end.

Record ProgramRecommender : Type := { programs_ : ref }.

(** [__init__(self, programs=None)]: [self.programs = programs or []]; the
    literal [[]] is a new list. *)
Definition init (h : heap) (programs : option ref) : heap * ProgramRecommender :=
  match programs with
  | Some r =>
      match deref h r with
      | _ :: _ => (h, {| programs_ := r |})
      | [] => (h ++ [[]], {| programs_ := List.length h |})
      end
  | None => (h ++ [[]], {| programs_ := List.length h |})
  end.

(** [add_program]: [self.programs.append(program)]. *)
Definition add_program (h : heap) (self : ProgramRecommender) (p : program) : heap :=
  assign h (programs_ self) (deref h (programs_ self) ++ [p]).

(** The method, reading [self.programs] from the heap. *)
Definition generate_recommendations
  (h : heap) (self : ProgramRecommender) (user_categories : list string) (top_n : Z)
  : list note * outcome (list program) :=
  generate_recommendations (deref h (programs_ self)) user_categories top_n.

End Objects.

(** * Properties

    ** The text layer on examples *)

Example stop_words_count : List.length Text.ENGLISH_STOP_WORDS = 318.
Proof. reflexivity. Qed.

Example analyze_yoga :
  Text.analyze "Yoga fitness morning class" = ["yoga"; "fitness"; "morning"; "class"].
Proof. vm_compute. reflexivity. Qed.

Example analyze_stop_only : Text.analyze "The and a I x." = [].
Proof. vm_compute. reflexivity. Qed.

Example vocabulary_sorted :
  Text.build_vocabulary [["yoga"; "fitness"]; ["chess"; "fitness"; "club"]]
  = ["chess"; "club"; "fitness"; "yoga"].
Proof. vm_compute. reflexivity. Qed.

(** ** Lists and outcomes *)

Lemma traverse_total {A B : Type} (f : A -> outcome B) (g : A -> B) (l : list A) :
  Forall (fun a => f a = Returned (g a)) l -> traverse f l = Returned (map g l).
Proof.
  induction 1 as [|a l Ha _ IH]; simpl; [reflexivity|].
  rewrite Ha, IH. reflexivity.
Qed.

Lemma slice_to_prefix {A : Type} (l : list A) (stop : Z) :
  exists n, slice_to l stop = firstn n l.
Proof.
  unfold slice_to. destruct (0 <=? stop)%Z; eauto.
Qed.

Lemma slice_to_nonneg {A : Type} (l : list A) (stop : Z) :
  (0 <= stop)%Z -> slice_to l stop = firstn (Z.to_nat stop) l.
Proof.
  intros H. unfold slice_to. apply Z.leb_le in H. rewrite H. reflexivity.
Qed.

Lemma slice_to_length_le {A : Type} (l : list A) (stop : Z) :
  (List.length (slice_to l stop) <= List.length l)%nat.
Proof.
  destruct (slice_to_prefix l stop) as [n ->]. rewrite length_firstn. lia.
Qed.

Lemma slice_to_map {A B : Type} (f : A -> B) (l : list A) (stop : Z) :
  slice_to (map f l) stop = map f (slice_to l stop).
Proof.
  unfold slice_to. rewrite length_map. destruct (0 <=? stop)%Z; apply firstn_map.
Qed.

Lemma firstn_incl {A : Type} (n : nat) (l : list A) (a : A) :
  In a (firstn n l) -> In a l.
Proof.
  revert l; induction n as [|n IH]; intros [|b l]; simpl; try tauto.
  intros [->|H]; [left; reflexivity | right; apply IH, H].
Qed.

Lemma slice_to_nil {A : Type} (stop : Z) : slice_to (@nil A) stop = [].
Proof.
  destruct (slice_to_prefix (@nil A) stop) as [n ->]. apply firstn_nil.
Qed.

Lemma slice_to_In {A : Type} (l : list A) (stop : Z) (a : A) :
  In a (slice_to l stop) -> In a l.
Proof.
  destruct (slice_to_prefix l stop) as [n ->]. apply firstn_incl.
Qed.

Lemma slice_to_nth_error {A : Type} (l : list A) (stop : Z) (k : nat) (a : A) :
  nth_error (slice_to l stop) k = Some a -> nth_error l k = Some a.
Proof.
  destruct (slice_to_prefix l stop) as [n ->]. revert l k.
  induction n as [|n IH]; intros [|b l] [|k]; simpl; try discriminate; auto.
Qed.

(** ** The vectorizer *)

Lemma vocabulary_nonempty_programs (programs : list program) :
  vocabulary_of programs <> [] -> programs <> [].
Proof. intros H ->. apply H. reflexivity. Qed.

Lemma fit_returned (programs : list program) :
  vocabulary_of programs <> [] ->
  Numeric.fit (map description programs) = Returned (vectorizer_of programs).
Proof.
  intros H. unfold Numeric.fit, vectorizer_of, vocabulary_of in *.
  destruct (Text.build_vocabulary _) as [|t ts]; [contradiction|reflexivity].
Qed.

Lemma fit_raised (programs : list program) :
  vocabulary_of programs = [] ->
  Numeric.fit (map description programs)
  = Raised (ValueError "empty vocabulary; perhaps the documents only contain stop words").
Proof.
  intros H. unfold Numeric.fit, vocabulary_of in *. rewrite H. reflexivity.
Qed.

Lemma fit_transform_returned (programs : list program) :
  vocabulary_of programs <> [] ->
  Numeric.fit_transform (map description programs)
  = Returned (vectorizer_of programs, map (tfidf_row programs) programs).
Proof.
  intros H. unfold Numeric.fit_transform. rewrite (fit_returned _ H). simpl.
  unfold Numeric.transform, tfidf_row. rewrite map_map. reflexivity.
Qed.

Lemma fit_transform_raised (programs : list program) :
  vocabulary_of programs = [] ->
  Numeric.fit_transform (map description programs)
  = Raised (ValueError "empty vocabulary; perhaps the documents only contain stop words").
Proof.
  intros H. unfold Numeric.fit_transform. rewrite (fit_raised _ H). reflexivity.
Qed.

(** ** The similarity matrix and the chosen indices *)

Lemma cosine_similarity_rows (programs matches : list program) :
  Numeric.cosine_similarity
    (Numeric.transform (vectorizer_of programs) (map description matches))
    (map (tfidf_row programs) programs)
  = map (similarity_row programs) matches.
Proof.
  unfold Numeric.cosine_similarity, Numeric.transform, similarity_row.
  rewrite !map_map. apply map_ext. intros p.
  rewrite !map_map. apply map_ext. intros q. reflexivity.
Qed.

Lemma similarities_returned (programs : list program) (user_categories : list string) :
  vocabulary_of programs <> [] ->
  similarities programs user_categories
  = Returned (map (similarity_row programs) (category_matches programs user_categories)).
Proof.
  intros H. unfold similarities. rewrite (fit_transform_returned _ H).
  rewrite cosine_similarity_rows. reflexivity.
Qed.

Lemma argmax_returned (row : list R) :
  row <> [] -> Numeric.argmax row = Returned (argmax_index row).
Proof. destruct row; [contradiction|reflexivity]. Qed.

Lemma similarity_row_nonempty (programs : list program) (p : program) :
  programs <> [] -> similarity_row programs p <> [].
Proof. destruct programs; [contradiction|discriminate]. Qed.

Lemma argmax_axis1_rows (programs matches : list program) :
  programs <> [] ->
  Numeric.argmax_axis1 (map (similarity_row programs) matches)
  = Returned (map (best_index programs) matches).
Proof.
  intros H. unfold Numeric.argmax_axis1.
  induction matches as [|p ms IH]; simpl; [reflexivity|].
  rewrite (argmax_returned _ (similarity_row_nonempty programs p H)). simpl.
  rewrite IH. reflexivity.
Qed.

Lemma similar_program_indices_returned (programs : list program) (user_categories : list string) :
  vocabulary_of programs <> [] ->
  similar_program_indices programs user_categories
  = Returned (map (best_index programs) (category_matches programs user_categories)).
Proof.
  intros H. unfold similar_program_indices.
  rewrite (similarities_returned _ _ H). simpl.
  apply argmax_axis1_rows, vocabulary_nonempty_programs, H.
Qed.

(** ** [argmax] returns the first position of the largest value *)

Lemma first_max_unique (row : list R) (i j : nat) :
  first_max row i -> first_max row j -> i = j.
Proof.
  intros (x & Hx & Hmax & Hfirst) (y & Hy & Hmax' & Hfirst').
  destruct (Nat.lt_trichotomy i j) as [Hlt|[Heq|Hgt]]; [|assumption|].
  - pose proof (Hfirst' _ _ Hlt Hx). pose proof (Hmax _ _ Hy). lra.
  - pose proof (Hfirst _ _ Hgt Hy). pose proof (Hmax' _ _ Hx). lra.
Qed.

Lemma first_max_lt (row : list R) (i : nat) :
  first_max row i -> (i < List.length row)%nat.
Proof.
  intros (x & Hx & _). apply nth_error_Some. rewrite Hx. discriminate.
Qed.

Lemma nth_error_snoc {A : Type} (l : list A) (a : A) (j : nat) (y : A) :
  nth_error (l ++ [a]) j = Some y ->
  ((j < List.length l)%nat /\ nth_error l j = Some y) \/ (j = List.length l /\ y = a).
Proof.
  intros H. destruct (Nat.lt_ge_cases j (List.length l)) as [Hlt|Hge].
  - left. split; [assumption|]. rewrite nth_error_app1 in H; assumption.
  - right. rewrite nth_error_app2 in H by assumption.
    destruct (j - List.length l)%nat as [|k] eqn:E; simpl in H.
    + injection H as <-. split; [lia|reflexivity].
    + destruct k; discriminate.
Qed.

Lemma first_max_snoc_new (prefix : list R) (best_i : nat) (best x : R) :
  first_max prefix best_i -> nth_error prefix best_i = Some best -> (best < x)%R ->
  first_max (prefix ++ [x]) (List.length prefix).
Proof.
  intros (b & Hb & Hmax & _) Hbest Hlt.
  assert (b = best) as -> by congruence.
  exists x. split; [|split].
  - rewrite nth_error_app2 by lia. rewrite Nat.sub_diag. reflexivity.
  - intros j y Hj. apply nth_error_snoc in Hj as [[_ Hj]|[_ ->]]; [|lra].
    pose proof (Hmax _ _ Hj). lra.
  - intros j y Hlj Hj. rewrite nth_error_app1 in Hj by assumption.
    pose proof (Hmax _ _ Hj). lra.
Qed.

Lemma first_max_snoc_keep (prefix : list R) (best_i : nat) (best x : R) :
  first_max prefix best_i -> nth_error prefix best_i = Some best -> ~ (best < x)%R ->
  first_max (prefix ++ [x]) best_i.
Proof.
  intros (b & Hb & Hmax & Hfirst) Hbest Hge.
  assert (b = best) as -> by congruence.
  assert (best_i < List.length prefix)%nat as Hin
    by (apply nth_error_Some; rewrite Hb; discriminate).
  exists best. split; [|split].
  - rewrite nth_error_app1 by assumption. assumption.
  - intros j y Hj. apply nth_error_snoc in Hj as [[_ Hj]|[_ ->]]; [|lra].
    apply (Hmax _ _ Hj).
  - intros j y Hlj Hj. rewrite nth_error_app1 in Hj by lia.
    apply (Hfirst _ _ Hlj Hj).
Qed.

Lemma argmax_from_first_max (suffix prefix : list R) (best : R) (best_i : nat) :
  first_max prefix best_i -> nth_error prefix best_i = Some best ->
  first_max (prefix ++ suffix)
            (Numeric.argmax_from best best_i (List.length prefix) suffix).
Proof.
  revert prefix best best_i.
  induction suffix as [|x suffix IH]; intros prefix best best_i Hfm Hbest; simpl.
  - rewrite app_nil_r. assumption.
  - replace (prefix ++ x :: suffix) with ((prefix ++ [x]) ++ suffix)
      by (rewrite <- app_assoc; reflexivity).
    replace (S (List.length prefix)) with (List.length (prefix ++ [x]))
      by (rewrite length_app; simpl; lia).
    destruct (Rlt_dec best x) as [Hlt|Hge].
    + apply IH.
      * eapply first_max_snoc_new; eassumption.
      * rewrite nth_error_app2 by lia. rewrite Nat.sub_diag. reflexivity.
    + apply IH.
      * eapply first_max_snoc_keep; eassumption.
      * assert (best_i < List.length prefix)%nat
          by (apply nth_error_Some; rewrite Hbest; discriminate).
        rewrite nth_error_app1 by assumption. assumption.
Qed.

Lemma first_max_singleton (x : R) : first_max [x] 0.
Proof.
  exists x. split; [reflexivity|]. split.
  - intros [|[|j]] y Hj; simpl in Hj; try discriminate. injection Hj as <-. lra.
  - intros j y Hj. lia.
Qed.

Lemma argmax_index_first_max (row : list R) :
  row <> [] -> first_max row (argmax_index row).
Proof.
  destruct row as [|x row]; [contradiction|]. intros _.
  apply (argmax_from_first_max row [x] x 0 (first_max_singleton x)). reflexivity.
Qed.

Lemma argmax_index_unique (row : list R) (i : nat) :
  first_max row i -> argmax_index row = i.
Proof.
  intros H. apply (first_max_unique row); [|assumption].
  apply argmax_index_first_max. intros ->.
  destruct H as (x & Hx & _). destruct i; discriminate.
Qed.

Lemma best_index_first_max (programs : list program) (p : program) :
  programs <> [] -> first_max (similarity_row programs p) (best_index programs p).
Proof.
  intros H. apply argmax_index_first_max, similarity_row_nonempty, H.
Qed.

Lemma best_index_lt (programs : list program) (p : program) :
  programs <> [] -> (best_index programs p < List.length programs)%nat.
Proof.
  intros H. pose proof (first_max_lt _ _ (best_index_first_max programs p H)) as Hlt.
  unfold similarity_row in Hlt. rewrite length_map in Hlt. assumption.
Qed.

(** ** The three ways the method ends *)

Lemma generate_recommendations_raised
  (programs : list program) (user_categories : list string) (top_n : Z) :
  programs <> [] -> vocabulary_of programs = [] ->
  generate_recommendations programs user_categories top_n
  = ([], Raised (ValueError "empty vocabulary; perhaps the documents only contain stop words")).
Proof.
  intros Hne Hv. unfold generate_recommendations.
  destruct programs as [|p ps]; [contradiction|].
  rewrite (fit_transform_raised _ Hv). reflexivity.
Qed.

Lemma getitem_best_index (programs : list program) (p : program) :
  programs <> [] ->
  getitem programs (best_index programs p)
  = Returned (nth (best_index programs p) programs []).
Proof.
  intros H. unfold getitem.
  rewrite (nth_error_nth' programs [] (best_index_lt programs p H)). reflexivity.
Qed.

Lemma generate_recommendations_returned
  (programs : list program) (user_categories : list string) (top_n : Z) :
  vocabulary_of programs <> [] ->
  generate_recommendations programs user_categories top_n
  = (MatchingPrograms user_categories (category_matches programs user_categories)
       :: match category_matches programs user_categories with
          | [] => [NoProgramsFound user_categories]
          | _ :: _ => []
          end,
     Returned (map (fun p => nth (best_index programs p) programs [])
                   (slice_to (category_matches programs user_categories) top_n))).
Proof.
  intros Hv. pose proof (vocabulary_nonempty_programs _ Hv) as Hne.
  unfold generate_recommendations.
  destruct programs as [|p0 ps] eqn:Ep; [contradiction|]. rewrite <- Ep in *.
  rewrite (fit_transform_returned _ Hv).
  destruct (category_matches programs user_categories) as [|m ms] eqn:Em.
  - rewrite slice_to_nil. reflexivity.
  - rewrite <- Em. rewrite cosine_similarity_rows, (argmax_axis1_rows _ _ Hne). simpl.
    rewrite slice_to_map.
    rewrite (traverse_total _ (fun i => nth i programs [])).
    + rewrite map_map. reflexivity.
    + apply Forall_forall. intros i Hi. apply in_map_iff in Hi as (p & <- & _).
      apply getitem_best_index, Hne.
Qed.

Lemma recommend_raised (programs : list program) (user_categories : list string) (top_n : Z) :
  programs <> [] -> vocabulary_of programs = [] ->
  recommend programs user_categories top_n
  = Raised (ValueError "empty vocabulary; perhaps the documents only contain stop words").
Proof.
  intros Hne Hv. unfold recommend.
  rewrite (generate_recommendations_raised _ _ _ Hne Hv). reflexivity.
Qed.

Lemma recommend_returned (programs : list program) (user_categories : list string) (top_n : Z) :
  vocabulary_of programs <> [] ->
  recommend programs user_categories top_n
  = Returned (map (fun p => nth (best_index programs p) programs [])
                  (slice_to (category_matches programs user_categories) top_n)).
Proof.
  intros Hv. unfold recommend.
  rewrite (generate_recommendations_returned _ _ _ Hv). reflexivity.
Qed.

(** Every run ends in one of the three ways. *)
Lemma recommend_cases (programs : list program) (user_categories : list string) (top_n : Z) :
  (programs = [] /\ recommend programs user_categories top_n = Returned [])
  \/ (programs <> [] /\ vocabulary_of programs = []
      /\ exists msg, recommend programs user_categories top_n = Raised (ValueError msg))
  \/ (vocabulary_of programs <> []
      /\ recommend programs user_categories top_n
         = Returned (map (fun p => nth (best_index programs p) programs [])
                         (slice_to (category_matches programs user_categories) top_n))).
Proof.
  destruct programs as [|p ps] eqn:Ep.
  - left. split; reflexivity.
  - rewrite <- Ep. assert (programs <> []) as Hne by (rewrite Ep; discriminate).
    destruct (vocabulary_of programs) as [|t ts] eqn:Ev.
    + right; left. split; [assumption|]. split; [reflexivity|].
      eexists. rewrite Ep in *. apply recommend_raised; assumption.
    + right; right. assert (vocabulary_of programs <> []) as Hv by (rewrite Ev; discriminate).
      split; [rewrite <- Ev; assumption|]. apply recommend_returned, Hv.
Qed.

(** When there are category matches, the result is read off the indices of
    line 76. *)
Lemma recommend_through_indices
  (programs : list program) (user_categories : list string) (top_n : Z) :
  category_matches programs user_categories <> [] ->
  recommend programs user_categories top_n
  = (idxs <- similar_program_indices programs user_categories ;;
     traverse (getitem programs) (slice_to idxs top_n)).
Proof.
  intros Hm. unfold recommend, generate_recommendations, similar_program_indices, similarities.
  destruct programs as [|p0 ps] eqn:Ep; [contradiction Hm; reflexivity|]. rewrite <- Ep in *.
  destruct (Numeric.fit_transform (map description programs)) as [[v X]|e]; [|reflexivity].
  destruct (category_matches programs user_categories) as [|m ms]; [contradiction|].
  reflexivity.
Qed.

(** ** Dot products and L2 normalisation *)

Section DotProducts.

Local Open Scope R_scope.
Import Numeric.

Lemma dot_self_nonneg (a : list R) : 0 <= dot a a.
Proof.
  induction a as [|x a IH]; simpl; [lra|]. pose proof (Rle_0_sqr x) as Hx.
  unfold Rsqr in Hx. lra.
Qed.

Lemma dot_comm (a b : list R) : dot a b = dot b a.
Proof.
  revert b; induction a as [|x a IH]; intros [|y b]; simpl; try reflexivity.
  rewrite IH. ring.
Qed.

Lemma dot_zero_l (a b : list R) : Forall (fun x => x = 0) a -> dot a b = 0.
Proof.
  intros H; revert b; induction H as [|x a Hx _ IH]; intros [|y b]; simpl; try reflexivity.
  rewrite IH, Hx. ring.
Qed.

Lemma dot_zero_r (a b : list R) : Forall (fun x => x = 0) b -> dot a b = 0.
Proof. intros H. rewrite dot_comm. apply dot_zero_l, H. Qed.

Lemma dot_self_zero (a : list R) : dot a a = 0 -> Forall (fun x => x = 0) a.
Proof.
  induction a as [|x a IH]; simpl; intros H; constructor.
  - pose proof (dot_self_nonneg a). nra.
  - apply IH. pose proof (dot_self_nonneg a). nra.
Qed.

Lemma dot_map_mult (k l : R) (a b : list R) :
  dot (map (fun x => x * k) a) (map (fun y => y * l) b) = dot a b * (k * l).
Proof.
  revert b; induction a as [|x a IH]; intros [|y b]; simpl; try ring.
  rewrite IH. ring.
Qed.

(** Twice the dot product is at most the sum of the squared norms. *)
Lemma two_dot_le (a b : list R) : 2 * dot a b <= dot a a + dot b b.
Proof.
  revert b; induction a as [|x a IH]; intros [|y b]; simpl.
  - lra.
  - pose proof (dot_self_nonneg (y :: b)) as H. simpl in H. lra.
  - pose proof (dot_self_nonneg (x :: a)) as H. simpl in H. lra.
  - specialize (IH b). pose proof (Rle_0_sqr (x - y)) as Hsq. unfold Rsqr in Hsq.
    assert ((x - y) * (x - y) = x * x + y * y - 2 * (x * y)) as Hexp by ring. lra.
Qed.

(** With equality only for equal vectors. *)
Lemma two_dot_eq (a b : list R) :
  List.length a = List.length b -> 2 * dot a b = dot a a + dot b b -> a = b.
Proof.
  revert b; induction a as [|x a IH]; intros [|y b] Hlen H; simpl in *;
    try discriminate; [reflexivity|].
  pose proof (two_dot_le a b) as Hle.
  pose proof (Rle_0_sqr (x - y)) as Hsq. unfold Rsqr in Hsq.
  assert ((x - y) * (x - y) = x * x + y * y - 2 * (x * y)) as Hexp by ring.
  assert ((x - y) * (x - y) = 0) as Hxy by lra.
  assert (2 * dot a b = dot a a + dot b b) as Hab by lra.
  f_equal; [|apply IH; [lia|assumption]].
  apply Rmult_integral in Hxy. lra.
Qed.

Lemma l2_normalize_length (row : list R) :
  List.length (l2_normalize row) = List.length row.
Proof.
  unfold l2_normalize. destruct (Req_dec_T _ _); [reflexivity|apply length_map].
Qed.

Lemma l2_normalize_zero (row : list R) :
  dot row row = 0 -> l2_normalize row = row.
Proof.
  intros H. unfold l2_normalize. destruct (Req_dec_T _ _); [reflexivity|contradiction].
Qed.

Lemma l2_normalize_nonzero (row : list R) :
  dot row row <> 0 -> l2_normalize row = map (fun x => x * / sqrt (dot row row)) row.
Proof.
  intros H. unfold l2_normalize. destruct (Req_dec_T _ _); [contradiction|reflexivity].
Qed.

Lemma sqrt_dot_pos (row : list R) : dot row row <> 0 -> 0 < sqrt (dot row row).
Proof.
  intros H. apply sqrt_lt_R0. pose proof (dot_self_nonneg row). lra.
Qed.

(** A normalised row that is not zero has norm one. *)
Lemma l2_normalize_unit (row : list R) :
  dot row row <> 0 -> dot (l2_normalize row) (l2_normalize row) = 1.
Proof.
  intros H. rewrite (l2_normalize_nonzero _ H), dot_map_mult.
  pose proof (sqrt_dot_pos _ H) as Hpos.
  pose proof (sqrt_sqrt (dot row row) (dot_self_nonneg row)) as Hsq.
  rewrite <- Hsq at 1. field. lra.
Qed.

Lemma l2_normalize_idempotent (row : list R) :
  l2_normalize (l2_normalize row) = l2_normalize row.
Proof.
  destruct (Req_dec_T (dot row row) 0) as [Hz|Hnz].
  - rewrite (l2_normalize_zero _ Hz). apply l2_normalize_zero, Hz.
  - pose proof (l2_normalize_unit _ Hnz) as Hunit.
    rewrite (l2_normalize_nonzero (l2_normalize row)) by lra.
    rewrite Hunit, sqrt_1. rewrite <- (map_id (l2_normalize row)) at 2.
    apply map_ext. intros x. field.
Qed.

Lemma l2_normalize_norm_le (row : list R) :
  dot (l2_normalize row) (l2_normalize row) <= 1.
Proof.
  destruct (Req_dec_T (dot row row) 0) as [Hz|Hnz].
  - rewrite (l2_normalize_zero _ Hz), Hz. lra.
  - rewrite (l2_normalize_unit _ Hnz). lra.
Qed.

(** Cosine similarity never exceeds one. *)
Lemma dot_normalized_le (a b : list R) :
  dot (l2_normalize a) (l2_normalize b) <= 1.
Proof.
  pose proof (two_dot_le (l2_normalize a) (l2_normalize b)).
  pose proof (l2_normalize_norm_le a). pose proof (l2_normalize_norm_le b). lra.
Qed.

(** It is one only between equal normalised rows. *)
Lemma dot_normalized_one (a b : list R) :
  List.length a = List.length b -> dot a a <> 0 ->
  dot (l2_normalize a) (l2_normalize b) = 1 ->
  dot b b <> 0 /\ l2_normalize a = l2_normalize b.
Proof.
  intros Hlen Ha H.
  assert (dot b b <> 0) as Hb.
  { intros Hz. rewrite (l2_normalize_zero b Hz) in H.
    rewrite (dot_zero_r _ _ (dot_self_zero _ Hz)) in H. lra. }
  split; [assumption|]. apply two_dot_eq.
  - rewrite !l2_normalize_length. assumption.
  - rewrite (l2_normalize_unit _ Ha), (l2_normalize_unit _ Hb), H. lra.
Qed.

End DotProducts.

(** ** The TF-IDF rows of a catalog *)

Section TfidfRows.

Local Open Scope R_scope.
Import Numeric.

Lemma document_frequency_le (analyzed : list (list string)) (t : string) :
  (document_frequency analyzed t <= List.length analyzed)%nat.
Proof. apply filter_length_le. Qed.

(** The smoothed idf weight is positive: it is at least one. *)
Lemma idf_ge_1 (n df : nat) : (df <= n)%nat -> 1 <= idf n df.
Proof.
  intros Hle. unfold idf.
  assert (0 < INR (1 + df)) as Hd by (apply lt_0_INR; lia).
  assert (INR (1 + df) <= INR (1 + n)) as Hn by (apply le_INR; lia).
  assert (1 <= INR (1 + n) / INR (1 + df)) as Hq.
  { apply (Rmult_le_reg_r (INR (1 + df))); [assumption|].
    unfold Rdiv. rewrite Rmult_assoc, Rinv_l by lra. lra. }
  destruct (Req_dec_T (INR (1 + n) / INR (1 + df)) 1) as [->|Hneq].
  - rewrite ln_1. lra.
  - pose proof (ln_increasing 1 (INR (1 + n) / INR (1 + df))) as Hln.
    rewrite ln_1 in Hln. lra.
Qed.

Lemma idf_positive (programs : list program) :
  Forall (fun w => 0 < w) (idf_ (vectorizer_of programs)).
Proof.
  unfold vectorizer_of; simpl. apply Forall_forall. intros w Hw.
  apply in_map_iff in Hw as (u & <- & _).
  pose proof (idf_ge_1 (List.length (map description programs))
                (document_frequency (map Text.analyze (map description programs)) u)) as H.
  rewrite <- (length_map Text.analyze (map description programs)) in H at 1.
  specialize (H (document_frequency_le _ _)). lra.
Qed.

Lemma idf_length (programs : list program) :
  List.length (idf_ (vectorizer_of programs)) = List.length (vocabulary_of programs).
Proof. unfold vectorizer_of; simpl. apply length_map. Qed.

Lemma counts_of_length (programs : list program) (p : program) :
  List.length (counts_of programs p) = List.length (vocabulary_of programs).
Proof. unfold counts_of, term_counts. apply length_map. Qed.

Lemma scale_length (c : list nat) (w : list R) :
  List.length c = List.length w -> List.length (scale c w) = List.length w.
Proof.
  revert w; induction c as [|x c IH]; intros [|y w] H; simpl in *; try discriminate;
    [reflexivity|]. f_equal. apply IH. lia.
Qed.

(** A count vector without a term gives the zero row. *)
Lemma scale_zero (c : list nat) (w : list R) :
  nonzerob c = false -> Forall (fun x => x = 0) (scale c w).
Proof.
  revert w; induction c as [|x c IH]; intros [|y w] H; simpl in *; try constructor.
  - apply orb_false_iff in H as [Hx _]. apply negb_false_iff, Nat.eqb_eq in Hx.
    subst x. simpl. ring.
  - apply IH. apply orb_false_iff in H as [_ H]. exact H.
Qed.

(** A count vector with a term gives a row that is not zero. *)
Lemma scale_nonzero (c : list nat) (w : list R) :
  nonzerob c = true -> Forall (fun y => 0 < y) w -> List.length c = List.length w ->
  dot (scale c w) (scale c w) <> 0.
Proof.
  revert w; induction c as [|x c IH]; intros [|y w] H Hw Hlen; simpl in *;
    try discriminate.
  inversion Hw as [|? ? Hy Hw']; subst.
  pose proof (dot_self_nonneg (scale c w)) as Hrest.
  destruct (Nat.eqb x 0) eqn:Ex; simpl in H.
  - apply Nat.eqb_eq in Ex. subst x. simpl.
    specialize (IH w H Hw' ltac:(lia)). lra.
  - apply Nat.eqb_neq in Ex.
    assert (0 < INR x) as Hx by (apply lt_0_INR; lia).
    assert (0 < INR x * y) as Hxy by (apply Rmult_lt_0_compat; assumption).
    assert (0 < (INR x * y) * (INR x * y)) by (apply Rmult_lt_0_compat; assumption).
    lra.
Qed.

(** Rows that agree after rescaling come from proportional counts. *)
Lemma scale_proportional (k l : R) (c d : list nat) (w : list R) :
  Forall (fun y => 0 < y) w ->
  List.length c = List.length w -> List.length d = List.length w ->
  map (fun x => x * k) (scale c w) = map (fun x => x * l) (scale d w) ->
  Forall (fun xy : nat * nat => INR (fst xy) * k = INR (snd xy) * l) (combine c d).
Proof.
  intros Hw; revert c d; induction Hw as [|y w Hy _ IH]; intros [|x c] [|z d] Hc Hd H;
    simpl in *; try discriminate; constructor.
  - simpl. injection H as Hhd _.
    apply (Rmult_eq_reg_r y); [|lra]. lra.
  - apply IH; [lia|lia|]. injection H as _ Htl. exact Htl.
Qed.

Lemma proportional_collinear (k l : R) (c d : list nat) :
  0 < k -> 0 < l ->
  Forall (fun xy : nat * nat => INR (fst xy) * k = INR (snd xy) * l) (combine c d) ->
  collinearb c d = true.
Proof.
  intros Hk Hl H. rewrite Forall_forall in H. unfold collinearb.
  apply forallb_forall. intros [cs ds] Hs. apply forallb_forall. intros [ct dt] Ht.
  simpl. apply Nat.eqb_eq, INR_eq. rewrite !mult_INR.
  pose proof (H _ Hs) as Es. pose proof (H _ Ht) as Et. simpl in Es, Et.
  apply (Rmult_eq_reg_r l); [|lra].
  transitivity (INR cs * (INR ct * k)); [rewrite Et; ring|].
  transitivity (INR ct * (INR cs * k)); [ring|]. rewrite Es. ring.
Qed.

(** The row of a program before normalisation. *)
Lemma tfidf_row_eq (programs : list program) (p : program) :
  tfidf_row programs p
  = l2_normalize (scale (counts_of programs p) (idf_ (vectorizer_of programs))).
Proof. reflexivity. Qed.

Lemma tfidf_row_counts (programs : list program) (p q : program) :
  counts_of programs p = counts_of programs q ->
  tfidf_row programs p = tfidf_row programs q.
Proof. intros H. rewrite !tfidf_row_eq, H. reflexivity. Qed.

Lemma similarity_eq (programs : list program) (p q : program) :
  similarity programs p q = dot (tfidf_row programs p) (tfidf_row programs q).
Proof.
  unfold similarity. rewrite !tfidf_row_eq, !l2_normalize_idempotent. reflexivity.
Qed.

Lemma similarity_le_1 (programs : list program) (p q : program) :
  similarity programs p q <= 1.
Proof. rewrite similarity_eq, !tfidf_row_eq. apply dot_normalized_le. Qed.

Lemma raw_row_nonzero (programs : list program) (p : program) :
  nonzerob (counts_of programs p) = true ->
  dot (scale (counts_of programs p) (idf_ (vectorizer_of programs)))
      (scale (counts_of programs p) (idf_ (vectorizer_of programs))) <> 0.
Proof.
  intros H. apply scale_nonzero; [assumption|apply idf_positive|].
  rewrite counts_of_length, idf_length. reflexivity.
Qed.

(** A program with a vocabulary term is at similarity one from itself. *)
Lemma similarity_self (programs : list program) (p : program) :
  nonzerob (counts_of programs p) = true -> similarity programs p p = 1.
Proof.
  intros H. rewrite similarity_eq, !tfidf_row_eq.
  apply l2_normalize_unit, raw_row_nonzero, H.
Qed.

(** A program without a vocabulary term is at similarity zero from every
    program. *)
Lemma similarity_zero_vector (programs : list program) (p q : program) :
  nonzerob (counts_of programs p) = false -> similarity programs p q = 0.
Proof.
  intros H. rewrite similarity_eq, !tfidf_row_eq.
  pose proof (scale_zero _ (idf_ (vectorizer_of programs)) H) as Hz.
  rewrite (l2_normalize_zero (scale (counts_of programs p) _))
    by (apply dot_zero_l, Hz).
  apply dot_zero_l, Hz.
Qed.

(** Similarity one is reached only by counts that point the same way. *)
Lemma similarity_one_same_direction (programs : list program) (p q : program) :
  nonzerob (counts_of programs p) = true -> similarity programs p q = 1 ->
  same_direction (counts_of programs q) (counts_of programs p) = true.
Proof.
  intros Hp H. rewrite similarity_eq, !tfidf_row_eq in H.
  pose proof (raw_row_nonzero _ _ Hp) as Hnz.
  set (w := idf_ (vectorizer_of programs)) in *.
  set (cp := counts_of programs p) in *. set (cq := counts_of programs q) in *.
  assert (List.length cp = List.length w) as Lp
    by (subst cp w; rewrite counts_of_length, idf_length; reflexivity).
  assert (List.length cq = List.length w) as Lq
    by (subst cq w; rewrite counts_of_length, idf_length; reflexivity).
  apply dot_normalized_one in H as [Hq Heq]; [|rewrite !scale_length; auto|assumption].
  rewrite (l2_normalize_nonzero _ Hnz), (l2_normalize_nonzero _ Hq) in Heq.
  assert (nonzerob cq = true) as Hqb.
  { destruct (nonzerob cq) eqn:E; [reflexivity|]. exfalso. apply Hq.
    apply dot_zero_l, scale_zero, E. }
  unfold same_direction. rewrite Hp, Hqb. simpl.
  symmetry in Heq. apply scale_proportional in Heq; [|apply idf_positive|assumption..].
  eapply proportional_collinear; [| |exact Heq];
    apply Rinv_0_lt_compat, sqrt_dot_pos; assumption.
Qed.

Lemma similarity_lt_1 (programs : list program) (p q : program) :
  nonzerob (counts_of programs p) = true ->
  same_direction (counts_of programs q) (counts_of programs p) = false ->
  similarity programs p q < 1.
Proof.
  intros Hp Hd. pose proof (similarity_le_1 programs p q) as Hle.
  destruct (Req_dec_T (similarity programs p q) 1) as [E|N]; [|lra].
  rewrite (similarity_one_same_direction _ _ _ Hp E) in Hd. discriminate.
Qed.

End TfidfRows.

(** ** The index chosen for a category match *)

(** A program with a vocabulary term is matched with itself unless an earlier
    program has counts that point the same way. *)
Lemma best_index_self (programs : list program) (p : program) (i : nat) :
  nth_error programs i = Some p ->
  nonzerob (counts_of programs p) = true ->
  (forall j q, (j < i)%nat -> nth_error programs j = Some q ->
     same_direction (counts_of programs q) (counts_of programs p) = false) ->
  best_index programs p = i.
Proof.
  intros Hi Hp Hbefore. apply argmax_index_unique.
  exists (similarity programs p p). unfold similarity_row. split; [|split].
  - rewrite nth_error_map, Hi. reflexivity.
  - intros j y Hj. rewrite nth_error_map in Hj.
    destruct (nth_error programs j) as [q|]; [|discriminate]. injection Hj as <-.
    rewrite (similarity_self _ _ Hp). apply similarity_le_1.
  - intros j y Hlt Hj. rewrite nth_error_map in Hj.
    destruct (nth_error programs j) as [q|] eqn:Eq; [|discriminate]. injection Hj as <-.
    rewrite (similarity_self _ _ Hp). apply similarity_lt_1; [assumption|].
    apply (Hbefore j); assumption.
Qed.

(** A program whose counts equal those of the first program is matched with
    the first program. *)
Lemma best_index_first (programs : list program) (p0 p : program) :
  nth_error programs 0 = Some p0 ->
  counts_of programs p = counts_of programs p0 ->
  best_index programs p = 0%nat.
Proof.
  intros H0 Hc. destruct programs as [|q ps]; [discriminate|]. injection H0 as ->.
  apply argmax_index_unique.
  exists (similarity (p0 :: ps) p p0). split; [reflexivity|]. split; [|intros; lia].
  intros j y Hj. unfold similarity_row in Hj. rewrite nth_error_map in Hj.
  destruct (nth_error (p0 :: ps) j) as [q|]; [|discriminate]. injection Hj as <-.
  rewrite !similarity_eq, <- (tfidf_row_counts _ _ _ Hc), <- !similarity_eq.
  destruct (nonzerob (counts_of (p0 :: ps) p)) eqn:E.
  - rewrite (similarity_self _ _ E). apply similarity_le_1.
  - rewrite !(similarity_zero_vector _ _ _ E). apply Rle_refl.
Qed.

Lemma similarities_raised (programs : list program) (user_categories : list string) :
  vocabulary_of programs = [] ->
  similarities programs user_categories
  = Raised (ValueError "empty vocabulary; perhaps the documents only contain stop words").
Proof.
  intros H. unfold similarities. rewrite (fit_transform_raised _ H). reflexivity.
Qed.

Lemma similarities_returned_inv
  (programs : list program) (user_categories : list string) (S : list (list R)) :
  similarities programs user_categories = Returned S ->
  vocabulary_of programs <> []
  /\ S = map (similarity_row programs) (category_matches programs user_categories).
Proof.
  intros H. destruct (vocabulary_of programs) as [|t ts] eqn:Ev.
  - rewrite (similarities_raised _ _ Ev) in H. discriminate.
  - assert (vocabulary_of programs <> []) as Hv by (rewrite Ev; discriminate).
    rewrite (similarities_returned _ _ Hv) in H. injection H as <-.
    split; [rewrite <- Ev; assumption|reflexivity].
Qed.

(** ** Duplicate labels in the preferences *)

Lemma existsb_eqb_In (c : string) (l : list string) :
  existsb (String.eqb c) l = true <-> In c l.
Proof.
  rewrite existsb_exists. split.
  - intros (d & Hd & E). apply String.eqb_eq in E. subst. assumption.
  - intros H. exists c. split; [assumption|apply String.eqb_refl].
Qed.

Lemma remove_duplicates_from_In (c : string) (l seen : list string) :
  In c (remove_duplicates_from seen l) <-> In c l /\ ~ In c seen.
Proof.
  revert seen; induction l as [|d l IH]; intros seen; simpl; [tauto|].
  destruct (existsb (String.eqb d) seen) eqn:E.
  - rewrite IH. apply existsb_eqb_In in E. split; [tauto|].
    intros [[->|H] Hn]; [contradiction|tauto].
  - assert (~ In d seen) as Hd.
    { intros H. apply existsb_eqb_In in H. congruence. }
    simpl. rewrite IH. simpl. split.
    + intros [->|[H Hn]]; [tauto|]. split; [tauto|]. intros Hs. apply Hn. tauto.
    + intros [[->|H] Hn]; [tauto|].
      destruct (string_dec d c) as [->|Hneq]; [tauto|]. right. split; [assumption|].
      intros [Heq|Hs]; [contradiction|contradiction].
Qed.

Lemma remove_duplicates_In (c : string) (l : list string) :
  In c (remove_duplicates l) <-> In c l.
Proof. unfold remove_duplicates. rewrite remove_duplicates_from_In. simpl. tauto. Qed.

Lemma in_categories_ext (l l' : list string) :
  (forall c, In c l <-> In c l') ->
  forall category, in_categories category l = in_categories category l'.
Proof.
  intros H [c|]; simpl; [|reflexivity].
  destruct (existsb (String.eqb c) l) eqn:E, (existsb (String.eqb c) l') eqn:E';
    try reflexivity.
  - apply existsb_eqb_In, H, existsb_eqb_In in E. congruence.
  - apply existsb_eqb_In, H, existsb_eqb_In in E'. congruence.
Qed.

Lemma category_matches_ext (programs : list program) (l l' : list string) :
  (forall c, In c l <-> In c l') ->
  category_matches programs l = category_matches programs l'.
Proof.
  intros H. unfold category_matches. apply filter_ext. intros p.
  apply in_categories_ext, H.
Qed.

(** The result depends on the preferences through the category matches only. *)
Lemma recommend_matches (programs : list program) (l l' : list string) (top_n : Z) :
  category_matches programs l = category_matches programs l' ->
  recommend programs l top_n = recommend programs l' top_n.
Proof.
  intros H. destruct programs as [|p ps] eqn:Ep; [reflexivity|]. rewrite <- Ep in *.
  assert (programs <> []) as Hne by (rewrite Ep; discriminate).
  destruct (vocabulary_of programs) as [|t ts] eqn:Ev.
  - rewrite !(recommend_raised _ _ _ Hne Ev). reflexivity.
  - assert (vocabulary_of programs <> []) as Hv by (rewrite Ev; discriminate).
    rewrite !(recommend_returned _ _ _ Hv), H. reflexivity.
Qed.

(** ** The printing loop *)

Lemma format_program_raised (p : program) (e : exn) :
  format_program p = Raised e ->
  ~ printable p /\ (e = KeyError "name" \/ e = KeyError "category" \/ e = KeyError "venue").
Proof.
  unfold format_program, subscript, printable.
  destruct (lookup "name" p); simpl.
  - destruct (lookup "category" p); simpl.
    + destruct (lookup "venue" p); simpl; [discriminate|].
      intros H; injection H as <-. split; [tauto|auto].
    + intros H; injection H as <-. split; [tauto|auto].
  - intros H; injection H as <-. split; [tauto|auto].
Qed.

Lemma print_programs_returned (recommended : list program) :
  snd (print_programs recommended) = Returned tt <-> Forall printable recommended.
Proof.
  induction recommended as [|p rest IH]; simpl.
  - split; [constructor|reflexivity].
  - destruct (format_program p) as [line|e] eqn:E.
    + destruct (print_programs rest) as [lines r]. simpl in *. rewrite IH. split.
      * intros H. constructor; [|assumption].
        destruct (lookup "name" p) eqn:En, (lookup "category" p) eqn:Ec,
          (lookup "venue" p) eqn:Ev;
          unfold format_program, subscript in E; rewrite ?En, ?Ec, ?Ev in E; simpl in E;
          try discriminate.
        unfold printable. rewrite En, Ec, Ev. repeat split; discriminate.
      * intros H. inversion H. assumption.
    + simpl. split; [discriminate|]. intros H. inversion H as [|? ? Hp _]; subst.
      apply format_program_raised in E as [Hn _]. contradiction.
Qed.

Lemma print_programs_raised (recommended : list program) (e : exn) :
  snd (print_programs recommended) = Raised e ->
  e = KeyError "name" \/ e = KeyError "category" \/ e = KeyError "venue".
Proof.
  induction recommended as [|p rest IH]; simpl; [discriminate|].
  destruct (format_program p) as [line|e'] eqn:E.
  - destruct (print_programs rest) as [lines r]. simpl in *. exact IH.
  - simpl. intros H; injection H as <-. apply (format_program_raised _ _ E).
Qed.

(** ** Records of the result *)

Lemma recommend_In_catalog
  (programs : list program) (user_categories : list string) (top_n : Z)
  (l : list program) (r : program) :
  recommend programs user_categories top_n = Returned l -> In r l ->
  exists i, nth_error programs i = Some r.
Proof.
  intros H Hr.
  destruct (recommend_cases programs user_categories top_n)
    as [[He Hr']|[(Hne & Hv & msg & Hr')|[Hv Hr']]]; rewrite Hr' in H; try discriminate;
    injection H as <-.
  - destruct Hr.
  - apply in_map_iff in Hr as (p & <- & _). exists (best_index programs p).
    apply nth_error_nth', best_index_lt, vocabulary_nonempty_programs, Hv.
Qed.

(** ** Programs with no vocabulary term in common *)

Section NoCommonTerm.

Local Open Scope R_scope.
Import Numeric.




End NoCommonTerm.

(** * The claims *)

(** ** C1: the similarity computation and exceptions *)

(** C1, as stated, fails: on a catalog whose only record has a description
    made of stop words ("The and "), the vectorizer finds no vocabulary and
    [fit_transform] raises [ValueError]; no list is returned. *)
Lemma C1_empty_vocabulary_raises :
  recommend [stop_words_only] ["and"] 5
  = Raised (ValueError "empty vocabulary; perhaps the documents only contain stop words").
Proof.
  apply recommend_raised; [discriminate|]. vm_compute. reflexivity.
Qed.

(** C1, amended: [recommend] returns a list exactly when the catalog is empty
    or its vocabulary is not empty (otherwise [fit_transform] raises
    [ValueError]); and in the similarity matrix every entry between a category
    match and a catalog program of which one has an all-zero feature vector
    is zero. *)
Theorem C1_returns_unless_vocabulary_empty
  (programs : list program) (user_categories : list string) (top_n : Z) :
  ((exists l, recommend programs user_categories top_n = Returned l)
   <-> (programs = [] \/ vocabulary_of programs <> []))
  /\ (forall S k j row x p q,
        similarities programs user_categories = Returned S ->
        nth_error S k = Some row -> nth_error row j = Some x ->
        nth_error (category_matches programs user_categories) k = Some p ->
        nth_error programs j = Some q ->
        nonzerob (counts_of programs p) = false
        \/ nonzerob (counts_of programs q) = false ->
        x = 0%R).
Proof.
  split.
  - destruct (recommend_cases programs user_categories top_n)
      as [[He Hr]|[(Hne & Hv & msg & Hr)|[Hv Hr]]]; rewrite Hr.
    + split; [auto|eauto].
    + split; [intros [l Hl]; discriminate|]. intros [H|H]; contradiction.
    + split; [auto|eauto].
  - intros S k j row x p q HS Hrow Hx Hp Hq Hzero.
    apply similarities_returned_inv in HS as [_ ->].
    rewrite nth_error_map, Hp in Hrow. injection Hrow as <-.
    unfold similarity_row in Hx. rewrite nth_error_map, Hq in Hx. injection Hx as <-.
    destruct Hzero as [Hz|Hz].
    + apply similarity_zero_vector, Hz.
    + rewrite similarity_eq, dot_comm, <- similarity_eq.
      apply similarity_zero_vector, Hz.
Qed.

(** Scenario D: a category match made of stop words only, next to a program
    with vocabulary; the list is returned and the similarities of the match
    are zero. *)
Lemma C1_returns_unless_vocabulary_empty_witness :
  (exists l, recommend [yoga; stop_words_only] ["and"] 5 = Returned l)
  /\ similarities [yoga; stop_words_only] ["and"] = Returned [[0%R; 0%R]].
Proof.
  split.
  - apply (proj1 (C1_returns_unless_vocabulary_empty [yoga; stop_words_only] ["and"] 5)).
    right. vm_compute. discriminate.
  - rewrite similarities_returned by (vm_compute; discriminate).
    replace (category_matches [yoga; stop_words_only] ["and"]) with [stop_words_only]
      by (vm_compute; reflexivity).
    unfold similarity_row. simpl map.
    rewrite !similarity_zero_vector by (vm_compute; reflexivity). reflexivity.
Defined.

(** ** C2: fields read by the printing loop *)

(** C2, as stated, fails: a recommended record that has a venue but no name
    makes the printing loop raise [KeyError] at output time. *)
Lemma C2_missing_name_raises :
  recommend [nameless] ["fitness"] 5 = Returned [nameless]
  /\ lookup "venue" nameless = Some "Gym A"
  /\ print_recommendations [nameless] = ([], Raised (KeyError "name")).
Proof.
  split; [|split; reflexivity].
  rewrite recommend_returned by (vm_compute; discriminate).
  replace (category_matches [nameless] ["fitness"]) with [nameless]
    by (vm_compute; reflexivity).
  replace (slice_to [nameless] 5) with [nameless] by reflexivity. simpl map.
  assert (best_index [nameless] nameless < 1)%nat as H
    by (apply (best_index_lt [nameless]); discriminate).
  replace (best_index [nameless] nameless) with 0%nat by lia. reflexivity.
Qed.

(** C2, amended: the printing loop completes exactly when every recommended
    record has a name, a category and a venue, and what it raises otherwise is
    the [KeyError] of one of these three keys; the absence of notes never
    raises at output time. *)
Theorem C2_printing_needs_name_category_venue (recommended : list program) :
  (Forall printable recommended
   /\ snd (print_recommendations recommended) = Returned tt)
  \/ (~ Forall printable recommended
      /\ exists key, In key ["name"; "category"; "venue"]
           /\ snd (print_recommendations recommended) = Raised (KeyError key)).
Proof.
  assert (snd (print_recommendations recommended) = snd (print_programs recommended)) as ->
    by (destruct recommended; reflexivity).
  destruct (snd (print_programs recommended)) as [[]|e] eqn:E.
  - left. split; [apply print_programs_returned, E|reflexivity].
  - right. split.
    + intros H. apply print_programs_returned in H. congruence.
    + apply print_programs_raised in E as [ -> | [ -> | -> ] ]; eexists; (split; [|reflexivity]);
        simpl; auto.
Qed.

(** ** C3: a [top_n] that is not positive *)

(** Scenario A with the category "fitness": both fitness records are matched
    with themselves. *)
Lemma scenario_A_fitness (top_n : Z) :
  recommend scenario_A ["fitness"] top_n = Returned (slice_to [yoga; pilates] top_n).
Proof.
  rewrite recommend_returned by (vm_compute; discriminate).
  replace (category_matches scenario_A ["fitness"]) with [yoga; pilates]
    by (vm_compute; reflexivity).
  rewrite <- (map_id (slice_to [yoga; pilates] top_n)) at 2.
  apply f_equal. apply map_ext_in. intros p Hp.
  apply slice_to_In in Hp.
  destruct Hp as [<-|[<-|[]]].
  - rewrite (best_index_self scenario_A yoga 0); [reflexivity|reflexivity| |].
    + vm_compute. reflexivity.
    + intros j q Hj. lia.
  - rewrite (best_index_self scenario_A pilates 1); [reflexivity|reflexivity| |].
    + vm_compute. reflexivity.
    + intros [|j] q Hj Hq; [|lia]. injection Hq as <-. vm_compute. reflexivity.
Qed.

(** C3, as stated, fails twice: with [top_n = 0] the stop-word catalog still
    raises [ValueError], and with [top_n = -1] the slice [[:-1]] drops the
    last index only, so Scenario A returns a record. *)
Lemma C3_raises_or_returns_records :
  recommend [stop_words_only] ["and"] 0
  = Raised (ValueError "empty vocabulary; perhaps the documents only contain stop words")
  /\ recommend scenario_A ["fitness"] (-1) = Returned [yoga].
Proof.
  split.
  - apply recommend_raised; [discriminate|]. vm_compute. reflexivity.
  - rewrite scenario_A_fitness. reflexivity.
Qed.

(** C3, amended: with [top_n = 0], on a catalog that is empty or has a
    vocabulary, [recommend] returns the empty list. *)
Theorem C3_top_n_zero (programs : list program) (user_categories : list string) :
  programs = [] \/ vocabulary_of programs <> [] ->
  recommend programs user_categories 0 = Returned [].
Proof.
  intros [->|Hv]; [reflexivity|].
  rewrite (recommend_returned _ _ _ Hv). reflexivity.
Qed.

Lemma C3_top_n_zero_witness : recommend scenario_A ["fitness"] 0 = Returned [].
Proof.
  apply C3_top_n_zero. right. vm_compute. discriminate.
Defined.

(** ** C4: the length of the result *)

(** C4, as stated, fails for a negative [top_n]: Scenario A with
    [top_n = -1] returns one record, more than [min(-1, 2)]. *)
Lemma C4_negative_top_n :
  exists l, recommend scenario_A ["fitness"] (-1) = Returned l
    /\ ~ (Z.of_nat (List.length l)
          <= Z.min (-1) (Z.of_nat (List.length (category_matches scenario_A ["fitness"]))))%Z.
Proof.
  exists [yoga]. split; [rewrite scenario_A_fitness; reflexivity|].
  replace (category_matches scenario_A ["fitness"]) with [yoga; pilates]
    by (vm_compute; reflexivity).
  simpl. lia.
Qed.

(** C4, amended: the returned list is never longer than the list of category
    matches, and for [top_n >= 0] its length is at most the minimum of
    [top_n] and the number of category matches. *)
Theorem C4_length_bound
  (programs : list program) (user_categories : list string) (top_n : Z) (l : list program) :
  recommend programs user_categories top_n = Returned l ->
  (List.length l <= List.length (category_matches programs user_categories))%nat
  /\ ((0 <= top_n)%Z ->
      (Z.of_nat (List.length l)
       <= Z.min top_n (Z.of_nat (List.length (category_matches programs user_categories))))%Z).
Proof.
  intros H.
  destruct (recommend_cases programs user_categories top_n)
    as [[He Hr]|[(Hne & Hv & msg & Hr)|[Hv Hr]]]; rewrite Hr in H; try discriminate;
    injection H as <-.
  - subst programs. simpl. split; lia.
  - rewrite length_map. split; [apply slice_to_length_le|].
    intros Hn. rewrite (slice_to_nonneg _ _ Hn), length_firstn. lia.
Qed.

Lemma C4_length_bound_witness :
  recommend scenario_A ["fitness"] 1 = Returned [yoga]
  /\ (List.length [yoga] <= List.length (category_matches scenario_A ["fitness"]))%nat.
Proof.
  assert (recommend scenario_A ["fitness"] 1 = Returned [yoga]) as H
    by (rewrite scenario_A_fitness; reflexivity).
  split; [exact H|]. apply (C4_length_bound _ _ _ _ H).
Defined.

(** ** C5: a category match and its own index *)




(** ** C6: ties go to the lowest index *)

(** C6: whenever the similarity matrix is computed, [argmax] gives every row
    (every category match) an index, and this index is the first position of
    the row that holds the largest similarity of the row. *)
Theorem C6_first_index_of_maximum
  (programs : list program) (user_categories : list string) (S : list (list R)) :
  similarities programs user_categories = Returned S ->
  exists idxs,
    similar_program_indices programs user_categories = Returned idxs
    /\ List.length idxs = List.length (category_matches programs user_categories)
    /\ forall k row, nth_error S k = Some row ->
         exists i, nth_error idxs k = Some i /\ first_max row i.
Proof.
  intros HS. pose proof (similarities_returned_inv _ _ _ HS) as [Hv ->].
  pose proof (vocabulary_nonempty_programs _ Hv) as Hne.
  exists (map (best_index programs) (category_matches programs user_categories)).
  split; [apply similar_program_indices_returned, Hv|].
  split; [apply length_map|].
  intros k row Hrow. rewrite nth_error_map in Hrow |- *.
  destruct (nth_error (category_matches programs user_categories) k) as [p|];
    [|discriminate].
  injection Hrow as <-. exists (best_index programs p). split; [reflexivity|].
  apply best_index_first_max, Hne.
Qed.

Lemma C6_first_index_of_maximum_witness :
  exists S idxs,
    similarities [yoga_class; class_yoga] ["fitness"] = Returned S
    /\ similar_program_indices [yoga_class; class_yoga] ["fitness"] = Returned idxs
    /\ forall k row, nth_error S k = Some row ->
         exists i, nth_error idxs k = Some i /\ first_max row i.
Proof.
  destruct (similarities [yoga_class; class_yoga] ["fitness"]) as [S|e] eqn:E.
  - destruct (C6_first_index_of_maximum _ _ S E) as (idxs & Hidx & _ & H).
    exists S, idxs. auto.
  - rewrite similarities_returned in E by (vm_compute; discriminate). discriminate.
Defined.

(** ** C7: the result follows the order of the category matches *)

(** C7: the [k]-th record of the result is the best match of the [k]-th
    category match (the catalog record at the first largest entry of the
    [k]-th row of the similarity matrix), whatever the similarities of the
    other rows, and for [top_n >= 0] the result has the first [top_n] of
    them (all of them when there are fewer). *)
Theorem C7_candidate_order
  (programs : list program) (user_categories : list string) (top_n : Z) (l : list program) :
  recommend programs user_categories top_n = Returned l ->
  in_candidate_order programs user_categories l
  /\ ((0 <= top_n)%Z ->
      List.length l
      = Nat.min (Z.to_nat top_n) (List.length (category_matches programs user_categories))).
Proof.
  intros H.
  destruct (recommend_cases programs user_categories top_n)
    as [[He Hr]|[(Hne & Hv & msg & Hr)|[Hv Hr]]]; rewrite Hr in H; try discriminate;
    injection H as <-.
  - subst programs. split.
    + intros [|k] r Hk; discriminate.
    + intros _. simpl. lia.
  - pose proof (vocabulary_nonempty_programs _ Hv) as Hne. split.
    + intros k r Hk. rewrite nth_error_map in Hk.
      destruct (nth_error (slice_to _ top_n) k) as [p|] eqn:Ep; [|discriminate].
      injection Hk as <-. apply slice_to_nth_error in Ep.
      exists p, (best_index programs p), (similarity_row programs p),
        (map (similarity_row programs) (category_matches programs user_categories)).
      split; [apply similarities_returned, Hv|].
      split; [assumption|]. split; [rewrite nth_error_map, Ep; reflexivity|].
      split; [apply best_index_first_max, Hne|].
      apply nth_error_nth', best_index_lt, Hne.
    + intros Hn. rewrite length_map, (slice_to_nonneg _ _ Hn). apply length_firstn.
Qed.

(** Scenario A with [top_n = 2]: the two fitness records, in catalog order. *)
Lemma C7_candidate_order_witness :
  recommend scenario_A ["fitness"] 2 = Returned [yoga; pilates]
  /\ in_candidate_order scenario_A ["fitness"] [yoga; pilates]
  /\ List.length [yoga; pilates]
     = Nat.min (Z.to_nat 2) (List.length (category_matches scenario_A ["fitness"])).
Proof.
  assert (recommend scenario_A ["fitness"] 2 = Returned [yoga; pilates]) as H
    by (rewrite scenario_A_fitness; reflexivity).
  split; [exact H|].
  destruct (C7_candidate_order _ _ _ _ H) as [Horder Hlen].
  split; [exact Horder|]. apply Hlen. lia.
Defined.

(** ** C8: the empty catalog and the preferences that match nothing *)

(** C8, as stated, fails in its second half: the vectorizer is fitted before
    the categories are looked at, so a stop-word catalog raises [ValueError]
    although no record matches "music"; nothing is printed. *)
Lemma C8_no_match_raises :
  category_matches [stop_words_only] ["music"] = []
  /\ generate_recommendations [stop_words_only] ["music"] 5
     = ([], Raised (ValueError "empty vocabulary; perhaps the documents only contain stop words")).
Proof.
  split; [vm_compute; reflexivity|].
  apply generate_recommendations_raised; [discriminate|]. vm_compute. reflexivity.
Qed.

(** C8, amended: on the empty catalog the method prints that no programs are
    available and returns the empty list; on a catalog that has a vocabulary
    and no record of a desired category it prints the (empty) matches, then
    that no programs were found for the given categories, and returns the
    empty list. *)
Theorem C8_empty_results :
  (forall user_categories top_n,
     generate_recommendations [] user_categories top_n
     = ([NoProgramsAvailable], Returned []))
  /\ (forall programs user_categories top_n,
        vocabulary_of programs <> [] ->
        category_matches programs user_categories = [] ->
        generate_recommendations programs user_categories top_n
        = ([MatchingPrograms user_categories []; NoProgramsFound user_categories],
           Returned [])).
Proof.
  split; [reflexivity|]. intros programs user_categories top_n Hv Hm.
  rewrite (generate_recommendations_returned _ _ _ Hv), Hm, slice_to_nil. reflexivity.
Qed.

(** Scenario B. *)
Lemma C8_empty_results_witness :
  generate_recommendations scenario_A ["music"] 5
  = ([MatchingPrograms ["music"] []; NoProgramsFound ["music"]], Returned []).
Proof.
  apply (proj2 C8_empty_results).
  - vm_compute. discriminate.
  - vm_compute. reflexivity.
Defined.

(** ** C9: repeated labels in the preferences *)

(** C9: removing the repeated labels of the preferences changes neither the
    category matches nor what [recommend] returns or raises. *)
Theorem C9_duplicates_do_not_matter
  (programs : list program) (user_categories : list string) (top_n : Z) :
  category_matches programs (remove_duplicates user_categories)
  = category_matches programs user_categories
  /\ recommend programs (remove_duplicates user_categories) top_n
     = recommend programs user_categories top_n.
Proof.
  assert (category_matches programs (remove_duplicates user_categories)
          = category_matches programs user_categories) as H
    by (apply category_matches_ext; intros c; apply remove_duplicates_In).
  split; [exact H|]. apply recommend_matches, H.
Qed.

(** ** C10: what the result is made of *)

(** C10: every record of the result is a record of the catalog; and a result
    can hold a record of a category that was not asked for: with the catalog
    [fitness_games; games_fitness] and the category "fitness", the only match
    is the second record and the result is the first, of category "games". *)
Theorem C10_catalog_records_of_any_category :
  (forall programs user_categories top_n l r,
     recommend programs user_categories top_n = Returned l -> In r l ->
     exists i, nth_error programs i = Some r)
  /\ (exists programs user_categories top_n l r,
        recommend programs user_categories top_n = Returned l /\ In r l
        /\ in_categories (lookup "category" r) user_categories = false).
Proof.
  split.
  - intros programs user_categories top_n l r H Hr.
    eapply recommend_In_catalog; eassumption.
  - exists [fitness_games; games_fitness], ["fitness"], 5%Z, [fitness_games], fitness_games.
    split; [|split; [left; reflexivity|reflexivity]].
    rewrite recommend_returned by (vm_compute; discriminate).
    replace (category_matches [fitness_games; games_fitness] ["fitness"])
      with [games_fitness] by (vm_compute; reflexivity).
    replace (slice_to [games_fitness] 5) with [games_fitness] by reflexivity. simpl map.
    rewrite (best_index_first _ fitness_games games_fitness); reflexivity.
Qed.

(** * Further properties of the recommender *)

(** ** The slice [[:top_n]] *)

Lemma slice_to_length {A : Type} (l : list A) (stop : Z) :
  Z.of_nat (List.length (slice_to l stop))
  = if (0 <=? stop)%Z
    then Z.min stop (Z.of_nat (List.length l))
    else Z.max 0 (Z.of_nat (List.length l) + stop).
Proof.
  unfold slice_to. destruct (0 <=? stop)%Z eqn:E; rewrite length_firstn.
  - apply Z.leb_le in E. lia.
  - apply Z.leb_gt in E. lia.
Qed.

(** The number of returned records, for every [top_n]: the first [top_n]
    category matches when [top_n >= 0], all but the last [-top_n] of them when
    [top_n < 0]. *)
Theorem recommend_length
  (programs : list program) (user_categories : list string) (top_n : Z) (l : list program) :
  recommend programs user_categories top_n = Returned l ->
  Z.of_nat (List.length l)
  = if (0 <=? top_n)%Z
    then Z.min top_n (Z.of_nat (List.length (category_matches programs user_categories)))
    else Z.max 0 (Z.of_nat (List.length (category_matches programs user_categories)) + top_n).
Proof.
  intros H.
  destruct (recommend_cases programs user_categories top_n)
    as [[He Hr]|[(Hne & Hv & msg & Hr)|[Hv Hr]]]; rewrite Hr in H; try discriminate;
    injection H as <-.
  - subst programs. simpl. destruct (0 <=? top_n)%Z eqn:E; [apply Z.leb_le in E|apply Z.leb_gt in E]; lia.
  - rewrite length_map. apply slice_to_length.
Qed.

Lemma recommend_length_witness :
  recommend scenario_A ["fitness"] (-1) = Returned [yoga]
  /\ Z.of_nat (List.length [yoga])
     = Z.max 0 (Z.of_nat (List.length (category_matches scenario_A ["fitness"])) + -1).
Proof.
  assert (recommend scenario_A ["fitness"] (-1) = Returned [yoga]) as H
    by (rewrite scenario_A_fitness; reflexivity).
  split; [exact H|]. apply (recommend_length _ _ _ _ H).
Defined.

(** Asking for fewer records gives a prefix of what asking for more gives. *)
Theorem recommend_prefix
  (programs : list program) (user_categories : list string) (m n : Z) (l : list program) :
  (0 <= m <= n)%Z ->
  recommend programs user_categories n = Returned l ->
  recommend programs user_categories m = Returned (firstn (Z.to_nat m) l).
Proof.
  intros Hmn H.
  destruct (recommend_cases programs user_categories n)
    as [[He Hr]|[(Hne & Hv & msg & Hr)|[Hv Hr]]]; rewrite Hr in H; try discriminate;
    injection H as <-.
  - subst programs. rewrite firstn_nil. reflexivity.
  - rewrite (recommend_returned _ _ _ Hv).
    rewrite !slice_to_nonneg by lia. rewrite firstn_map, firstn_firstn.
    replace (Nat.min (Z.to_nat m) (Z.to_nat n)) with (Z.to_nat m) by lia. reflexivity.
Qed.

Lemma recommend_prefix_witness :
  recommend scenario_A ["fitness"] 2 = Returned [yoga; pilates]
  /\ recommend scenario_A ["fitness"] 1 = Returned [yoga].
Proof.
  assert (recommend scenario_A ["fitness"] 2 = Returned [yoga; pilates]) as H
    by (rewrite scenario_A_fitness; reflexivity).
  split; [exact H|].
  apply (recommend_prefix scenario_A ["fitness"] 1 2 _ ltac:(lia) H).
Defined.

(** ** The entries of the similarity matrix *)

Section SimilarityEntries.

Local Open Scope R_scope.
Import Numeric.

Lemma dot_nonneg (a b : list R) :
  Forall (fun x => 0 <= x) a -> Forall (fun x => 0 <= x) b -> 0 <= dot a b.
Proof.
  intros Ha; revert b; induction Ha as [|x a Hx _ IH]; intros [|y b] Hb; simpl; try lra.
  inversion Hb as [|? ? Hy Hb']; subst. specialize (IH b Hb').
  pose proof (Rmult_le_pos x y Hx Hy). lra.
Qed.

Lemma scale_nonneg (c : list nat) (w : list R) :
  Forall (fun y => 0 < y) w -> Forall (fun x => 0 <= x) (scale c w).
Proof.
  intros Hw; revert c; induction Hw as [|y w Hy _ IH]; intros [|x c]; simpl;
    constructor; [|apply IH].
  apply Rmult_le_pos; [apply pos_INR|lra].
Qed.

Lemma l2_normalize_nonneg (row : list R) :
  Forall (fun x => 0 <= x) row -> Forall (fun x => 0 <= x) (l2_normalize row).
Proof.
  intros H. destruct (Req_dec_T (dot row row) 0) as [Hz|Hnz].
  - rewrite (l2_normalize_zero _ Hz). assumption.
  - rewrite (l2_normalize_nonzero _ Hnz). apply Forall_forall. intros y Hy.
    apply in_map_iff in Hy as (x & <- & Hx). rewrite Forall_forall in H.
    apply Rmult_le_pos; [apply H, Hx|].
    apply Rlt_le, Rinv_0_lt_compat, sqrt_dot_pos, Hnz.
Qed.

Lemma tfidf_row_nonneg (programs : list program) (p : program) :
  Forall (fun x => 0 <= x) (tfidf_row programs p).
Proof.
  rewrite tfidf_row_eq. apply l2_normalize_nonneg, scale_nonneg, idf_positive.
Qed.

Lemma similarity_nonneg (programs : list program) (p q : program) :
  0 <= similarity programs p q.
Proof. rewrite similarity_eq. apply dot_nonneg; apply tfidf_row_nonneg. Qed.

End SimilarityEntries.

(** The similarity matrix has one row per category match and one column per
    catalog program, and none of its entries is negative. *)
Theorem similarities_shape_and_sign
  (programs : list program) (user_categories : list string) (S : list (list R)) :
  similarities programs user_categories = Returned S ->
  List.length S = List.length (category_matches programs user_categories)
  /\ Forall (fun row => List.length row = List.length programs
                        /\ Forall (fun x => (0 <= x)%R) row) S.
Proof.
  intros H. apply similarities_returned_inv in H as [_ ->].
  split; [apply length_map|]. apply Forall_forall. intros row Hrow.
  apply in_map_iff in Hrow as (p & <- & _). unfold similarity_row.
  split; [apply length_map|]. apply Forall_forall. intros x Hx.
  apply in_map_iff in Hx as (q & <- & _). apply similarity_nonneg.
Qed.

Lemma similarities_shape_and_sign_witness :
  exists S, similarities scenario_A ["fitness"] = Returned S
    /\ List.length S = List.length (category_matches scenario_A ["fitness"])
    /\ Forall (fun row => List.length row = List.length scenario_A
                          /\ Forall (fun x => (0 <= x)%R) row) S.
Proof.
  destruct (similarities scenario_A ["fitness"]) as [S|e] eqn:E.
  - exists S. split; [reflexivity|]. apply (similarities_shape_and_sign _ _ _ E).
  - rewrite similarities_returned in E by (vm_compute; discriminate). discriminate.
Defined.

(** ** A category match without a vocabulary term *)

(** A category match whose description has no vocabulary term (stop words,
    one-letter words, punctuation) is matched with the first program of the
    catalog. *)
Theorem no_vocabulary_term_selects_first
  (programs : list program) (user_categories : list string)
  (idxs : list nat) (k : nat) (p : program) :
  similar_program_indices programs user_categories = Returned idxs ->
  nth_error (category_matches programs user_categories) k = Some p ->
  nonzerob (counts_of programs p) = false ->
  nth_error idxs k = Some 0%nat.
Proof.
  intros Hidx Hk Hp.
  assert (vocabulary_of programs <> []) as Hv.
  { intros Hv. unfold similar_program_indices in Hidx.
    rewrite (similarities_raised _ _ Hv) in Hidx. discriminate. }
  rewrite (similar_program_indices_returned _ _ Hv) in Hidx. injection Hidx as <-.
  rewrite nth_error_map, Hk. simpl. f_equal.
  pose proof (vocabulary_nonempty_programs _ Hv) as Hne.
  destruct programs as [|p0 ps] eqn:Ep; [contradiction|]. rewrite <- Ep in *.
  apply argmax_index_unique. exists (similarity programs p p0).
  split; [rewrite Ep; reflexivity|]. split; [|intros; lia].
  intros j y Hj. unfold similarity_row in Hj. rewrite nth_error_map in Hj.
  destruct (nth_error programs j) as [q|]; [|discriminate]. injection Hj as <-.
  rewrite !(similarity_zero_vector _ _ _ Hp). apply Rle_refl.
Qed.

Lemma no_vocabulary_term_selects_first_witness :
  exists idxs, similar_program_indices [yoga; stop_words_only] ["and"] = Returned idxs
    /\ nth_error idxs 0 = Some 0%nat.
Proof.
  destruct (similar_program_indices [yoga; stop_words_only] ["and"]) as [idxs|e] eqn:E.
  - exists idxs. split; [reflexivity|].
    apply (no_vocabulary_term_selects_first _ _ idxs 0 stop_words_only E).
    + vm_compute. reflexivity.
    + vm_compute. reflexivity.
  - rewrite similar_program_indices_returned in E by (vm_compute; discriminate).
    discriminate.
Defined.

(** ** What the chosen indices depend on *)

Lemma same_text_analyze (p p' : program) :
  same_text p p' -> Text.analyze (description p) = Text.analyze (description p').
Proof. intros [H _]. unfold Text.analyze. rewrite H. reflexivity. Qed.

Lemma same_text_analyzed (programs programs' : list program) :
  Forall2 same_text programs programs' ->
  map Text.analyze (map description programs) = map Text.analyze (map description programs').
Proof.
  induction 1 as [|p p' ps ps' Hp _ IH]; simpl; [reflexivity|].
  rewrite (same_text_analyze _ _ Hp), IH. reflexivity.
Qed.

Lemma same_text_vocabulary (programs programs' : list program) :
  Forall2 same_text programs programs' -> vocabulary_of programs = vocabulary_of programs'.
Proof. intros H. unfold vocabulary_of. rewrite (same_text_analyzed _ _ H). reflexivity. Qed.

Lemma same_text_vectorizer (programs programs' : list program) :
  Forall2 same_text programs programs' -> vectorizer_of programs = vectorizer_of programs'.
Proof.
  intros H. unfold vectorizer_of.
  rewrite (same_text_vocabulary _ _ H), (same_text_analyzed _ _ H).
  rewrite !length_map, (Forall2_length H). reflexivity.
Qed.

Lemma same_text_tfidf_row (programs programs' : list program) (p p' : program) :
  Forall2 same_text programs programs' -> same_text p p' ->
  tfidf_row programs p = tfidf_row programs' p'.
Proof.
  intros H Hp. unfold tfidf_row, Numeric.transform_one.
  rewrite (same_text_vectorizer _ _ H), (same_text_analyze _ _ Hp). reflexivity.
Qed.

Lemma same_text_similarity (programs programs' : list program) (p p' q q' : program) :
  Forall2 same_text programs programs' -> same_text p p' -> same_text q q' ->
  similarity programs p q = similarity programs' p' q'.
Proof.
  intros H Hp Hq. unfold similarity.
  rewrite (same_text_tfidf_row _ _ _ _ H Hp), (same_text_tfidf_row _ _ _ _ H Hq).
  reflexivity.
Qed.

Lemma same_text_best_index (programs programs' : list program) (p p' : program) :
  Forall2 same_text programs programs' -> same_text p p' ->
  best_index programs p = best_index programs' p'.
Proof.
  intros Hsame Hp. unfold best_index, similarity_row. f_equal.
  assert (forall qs qs', Forall2 same_text qs qs' ->
            map (similarity programs p) qs = map (similarity programs' p') qs') as H.
  { induction 1 as [|q q' qs qs' Hq _ IH]; simpl; [reflexivity|].
    rewrite (same_text_similarity _ _ _ _ _ _ Hsame Hp Hq), IH. reflexivity. }
  apply H, Hsame.
Qed.

Lemma same_text_category_matches
  (programs programs' : list program) (user_categories : list string) :
  Forall2 same_text programs programs' ->
  Forall2 same_text (category_matches programs user_categories)
                    (category_matches programs' user_categories).
Proof.
  unfold category_matches.
  induction 1 as [|p p' ps ps' Hp _ IH]; simpl; [constructor|].
  destruct Hp as [Ht Hc]. rewrite Hc.
  destruct (in_categories (lookup "category" p') user_categories);
    [constructor; [split; assumption|]|]; exact IH.
Qed.

Lemma same_text_nth (programs programs' : list program) (i : nat) :
  Forall2 same_text programs programs' ->
  (i < List.length programs)%nat -> same_text (nth i programs []) (nth i programs' []).
Proof.
  intros H; revert i; induction H as [|p p' ps ps' Hp _ IH]; intros i Hi; simpl in *; [lia|].
  destruct i as [|i]; [exact Hp|]. apply IH. lia.
Qed.

Lemma same_text_firstn (n : nat) (l l' : list program) :
  Forall2 same_text l l' -> Forall2 same_text (firstn n l) (firstn n l').
Proof.
  intros H; revert n; induction H; intros [|n]; simpl; constructor; auto.
Qed.

(** The chosen indices depend on the catalog only through each record's
    category and the text of its name, category and notes up to the case of
    letters: two catalogs that agree on these get the same indices, and what
    [recommend] returns for one is, record by record, what it returns for the
    other. *)
Theorem indices_depend_on_text_only
  (programs programs' : list program) (user_categories : list string) :
  Forall2 same_text programs programs' ->
  similar_program_indices programs user_categories
  = similar_program_indices programs' user_categories
  /\ forall top_n l,
       recommend programs user_categories top_n = Returned l ->
       exists l', recommend programs' user_categories top_n = Returned l'
                  /\ Forall2 same_text l l'.
Proof.
  intros Hsame.
  pose proof (same_text_vocabulary _ _ Hsame) as Hvoc.
  pose proof (same_text_category_matches _ _ user_categories Hsame) as Hm.
  assert (forall ms ms', Forall2 same_text ms ms' ->
            map (best_index programs) ms = map (best_index programs') ms') as Hbest.
  { induction 1 as [|p p' ms ms' Hp _ IH]; simpl; [reflexivity|].
    rewrite (same_text_best_index _ _ _ _ Hsame Hp), IH. reflexivity. }
  split.
  - destruct (vocabulary_of programs) as [|t ts] eqn:Ev.
    + unfold similar_program_indices.
      rewrite (similarities_raised _ _ Ev), (similarities_raised programs') by congruence.
      reflexivity.
    + assert (vocabulary_of programs <> []) as Hv by (rewrite Ev; discriminate).
      rewrite (similar_program_indices_returned _ _ Hv).
      rewrite (similar_program_indices_returned programs') by congruence.
      f_equal. apply Hbest, Hm.
  - intros top_n l H.
    destruct (recommend_cases programs user_categories top_n)
      as [[He Hr]|[(Hne & Hv & msg & Hr)|[Hv Hr]]]; rewrite Hr in H; try discriminate;
      injection H as <-.
    + subst programs. inversion Hsame; subst. exists []. split; [reflexivity|constructor].
    + assert (vocabulary_of programs' <> []) as Hv' by congruence.
      rewrite (recommend_returned _ _ _ Hv'). eexists. split; [reflexivity|].
      pose proof (vocabulary_nonempty_programs _ Hv) as Hne.
      assert (forall ms ms', Forall2 same_text ms ms' ->
                Forall2 same_text
                  (map (fun p => nth (best_index programs p) programs []) ms)
                  (map (fun p => nth (best_index programs' p) programs' []) ms')) as Hrec.
      { induction 1 as [|p p' ms ms' Hp _ IH]; simpl; constructor; [|exact IH].
        rewrite <- (same_text_best_index _ _ _ _ Hsame Hp).
        apply same_text_nth; [assumption|apply best_index_lt, Hne]. }
      apply Hrec. unfold slice_to. rewrite (Forall2_length Hm).
      destruct (0 <=? top_n)%Z; apply same_text_firstn, Hm.
Qed.

Lemma indices_depend_on_text_only_witness :
  similar_program_indices scenario_A ["fitness"]
  = similar_program_indices scenario_A_relabelled ["fitness"].
Proof.
  apply (indices_depend_on_text_only scenario_A scenario_A_relabelled ["fitness"]).
  repeat constructor; vm_compute; reflexivity.
Defined.

(** ** The printing loop, line by line *)

Lemma printableb_printable (p : program) : printableb p = true <-> printable p.
Proof.
  unfold printableb, printable.
  destruct (lookup "name" p), (lookup "category" p), (lookup "venue" p);
    split; try discriminate; try tauto; intros _; repeat split; discriminate.
Qed.

Lemma format_program_line (p : program) :
  printableb p = true -> format_program p = Returned (program_line p).
Proof.
  unfold printableb, format_program, program_line, subscript, get.
  destruct (lookup "name" p), (lookup "category" p), (lookup "venue" p);
    try discriminate. reflexivity.
Qed.

Lemma format_program_not_printable (p : program) :
  printableb p = false -> exists key, format_program p = Raised (KeyError key).
Proof.
  unfold printableb, format_program, subscript.
  destruct (lookup "name" p), (lookup "category" p), (lookup "venue" p);
    try discriminate; simpl; eauto.
Qed.

Lemma printable_prefix_all (l : list program) :
  printable_prefix l = l <-> Forall printable l.
Proof.
  induction l as [|p l IH]; simpl; [split; [constructor|reflexivity]|].
  destruct (printableb p) eqn:E.
  - apply printableb_printable in E. split.
    + intros H. injection H as H. constructor; [assumption|apply IH, H].
    + intros H. inversion H; subst. f_equal. apply IH. assumption.
  - split; [discriminate|]. intros H. inversion H as [|? ? Hp _]; subst.
    apply printableb_printable in Hp. congruence.
Qed.

Lemma print_programs_lines (recommended : list program) :
  fst (print_programs recommended) = map program_line (printable_prefix recommended).
Proof.
  induction recommended as [|p rest IH]; simpl; [reflexivity|].
  destruct (printableb p) eqn:E.
  - rewrite (format_program_line _ E).
    destruct (print_programs rest) as [lines r]. simpl in *. f_equal. exact IH.
  - destruct (format_program_not_printable _ E) as [key Hkey]. rewrite Hkey. reflexivity.
Qed.

Lemma print_programs_stops (recommended : list program) :
  printable_prefix recommended <> recommended ->
  exists key, snd (print_programs recommended) = Raised (KeyError key).
Proof.
  induction recommended as [|p rest IH]; simpl; intros H; [contradiction H; reflexivity|].
  destruct (printableb p) eqn:E.
  - rewrite (format_program_line _ E).
    destruct (print_programs rest) as [lines r]. simpl in *.
    apply IH. intros H'. apply H. f_equal. exact H'.
  - destruct (format_program_not_printable _ E) as [key Hkey]. rewrite Hkey. simpl. eauto.
Qed.

(** The loop prints the line of every record that precedes the first record
    lacking a name, a category or a venue, and nothing after it; it completes
    when no record lacks a field and raises [KeyError] otherwise. *)
Theorem print_programs_prints_prefix (recommended : list program) :
  fst (print_programs recommended) = map program_line (printable_prefix recommended)
  /\ (printable_prefix recommended = recommended ->
      snd (print_programs recommended) = Returned tt)
  /\ (printable_prefix recommended <> recommended ->
      exists key, snd (print_programs recommended) = Raised (KeyError key)).
Proof.
  split; [apply print_programs_lines|]. split; [|apply print_programs_stops].
  intros H. apply print_programs_returned, printable_prefix_all, H.
Qed.

(** ** The body of [main] *)

Lemma init_programs_some (programs : list program) : init_programs (Some programs) = programs.
Proof. destruct programs; reflexivity. Qed.

Lemma lines_of_notes_lines (notes : list note) (lines : list string) :
  lines_of (map Note notes ++ map Line lines) = lines.
Proof.
  induction notes as [|n notes IH]; simpl; [|exact IH].
  induction lines as [|s lines IH]; simpl; [reflexivity|]. f_equal. exact IH.
Qed.

Lemma lines_of_notes (notes : list note) : lines_of (map Note notes) = [].
Proof. induction notes; simpl; auto. Qed.

(** [main] once both keys are found. *)
Lemma main_with_keys
  (programs_json : document (list program)) (preferences_json : document (list string))
  (top_n : option Z) (programs : list program) (categories : list string) :
  find_key "programs" programs_json = Some programs ->
  find_key "preferred_categories" preferences_json = Some categories ->
  main programs_json preferences_json top_n
  = match generate_recommendations programs categories (top_n_argument top_n) with
    | (notes, Raised e) => (map Note notes, Raised e)
    | (notes, Returned recommended) =>
        (map Note notes ++ map Line (fst (print_recommendations recommended)),
         snd (print_recommendations recommended))
    end.
Proof.
  intros Hp Hc. unfold main, load_program_data, load_user_preferences, getkey.
  rewrite Hp, Hc, init_programs_some.
  destruct (generate_recommendations programs categories (top_n_argument top_n))
    as [notes [recommended|e]]; [|reflexivity].
  destruct (print_recommendations recommended). reflexivity.
Qed.

Lemma print_recommendations_returned (recommended : list program) :
  snd (print_recommendations recommended) = Returned tt <-> Forall printable recommended.
Proof.
  destruct recommended as [|p rest]; [split; [constructor|reflexivity]|].
  apply print_programs_returned.
Qed.

(** [main] runs to its end exactly when both files have their key, the
    recommender returns a list, and every recommended record has a name, a
    category and a venue. *)
Theorem main_completes_iff
  (programs_json : document (list program)) (preferences_json : document (list string))
  (top_n : option Z) :
  snd (main programs_json preferences_json top_n) = Returned tt
  <-> exists programs categories recommended,
        find_key "programs" programs_json = Some programs
        /\ find_key "preferred_categories" preferences_json = Some categories
        /\ recommend programs categories (top_n_argument top_n) = Returned recommended
        /\ Forall printable recommended.
Proof.
  split.
  - intros H. destruct (find_key "programs" programs_json) as [programs|] eqn:Hp.
    + destruct (find_key "preferred_categories" preferences_json) as [categories|] eqn:Hc.
      * rewrite (main_with_keys _ _ _ _ _ Hp Hc) in H.
        destruct (generate_recommendations programs categories (top_n_argument top_n))
          as [notes [recommended|e]] eqn:G; simpl in H; [|discriminate].
        exists programs, categories, recommended. repeat split.
        -- unfold recommend. rewrite G. reflexivity.
        -- apply print_recommendations_returned, H.
      * unfold main, load_program_data, load_user_preferences, getkey in H.
        rewrite Hp, Hc in H. discriminate.
    + unfold main, load_program_data, getkey in H. rewrite Hp in H. discriminate.
  - intros (programs & categories & recommended & Hp & Hc & Hr & Hprint).
    rewrite (main_with_keys _ _ _ _ _ Hp Hc). unfold recommend in Hr.
    destruct (generate_recommendations programs categories (top_n_argument top_n))
      as [notes result]. simpl in Hr. subst result. simpl.
    apply print_recommendations_returned, Hprint.
Qed.

(** Scenario A through [main], with the default [top_n]. *)
Lemma main_completes_iff_witness :
  snd (main scenario_A_json fitness_json None) = Returned tt.
Proof.
  apply (proj2 (main_completes_iff scenario_A_json fitness_json None)).
  exists scenario_A, ["fitness"], [yoga; pilates].
  split; [reflexivity|]. split; [reflexivity|].
  split; [rewrite scenario_A_fitness; reflexivity|].
  repeat constructor; discriminate.
Defined.

(** The lines [main] prints once the recommender has returned: the single
    line "No recommendations available." for an empty result, and otherwise
    the line of each recommended record, in order, up to the first record that
    lacks a field. *)
Theorem main_lines
  (programs_json : document (list program)) (preferences_json : document (list string))
  (top_n : option Z) (programs : list program) (categories : list string)
  (recommended : list program) :
  find_key "programs" programs_json = Some programs ->
  find_key "preferred_categories" preferences_json = Some categories ->
  recommend programs categories (top_n_argument top_n) = Returned recommended ->
  lines_of (fst (main programs_json preferences_json top_n))
  = match recommended with
    | [] => ["No recommendations available."]
    | _ :: _ => map program_line (printable_prefix recommended)
    end.
Proof.
  intros Hp Hc Hr. rewrite (main_with_keys _ _ _ _ _ Hp Hc). unfold recommend in Hr.
  destruct (generate_recommendations programs categories (top_n_argument top_n))
    as [notes result]. simpl in Hr. subst result. simpl.
  rewrite lines_of_notes_lines.
  destruct recommended as [|p rest]; [reflexivity|].
  apply (print_programs_lines (p :: rest)).
Qed.

Lemma main_lines_witness :
  lines_of (fst (main scenario_A_json fitness_json None))
  = ["Program Name: Yoga, Category: fitness, Venue: Gym A";
     "Program Name: Pilates, Category: fitness, Venue: Gym B"].
Proof.
  rewrite (main_lines scenario_A_json fitness_json None scenario_A ["fitness"]
             [yoga; pilates]); [reflexivity|reflexivity|reflexivity|].
  rewrite scenario_A_fitness. reflexivity.
Defined.

(** What [main] can raise on files of the expected shape (a catalog object
    whose values are lists of objects with text values, a preferences object
    whose values are lists of texts): the [KeyError] of a file that lacks its
    key, with nothing printed; the [ValueError] of the vectorizer, with no
    line of [main] printed; or the [KeyError] of a recommended record that
    lacks a name, a category or a venue. *)
Theorem main_exceptions
  (programs_json : document (list program)) (preferences_json : document (list string))
  (top_n : option Z) (e : exn) :
  snd (main programs_json preferences_json top_n) = Raised e ->
  (find_key "programs" programs_json = None /\ e = KeyError "programs"
   /\ fst (main programs_json preferences_json top_n) = [])
  \/ (find_key "programs" programs_json <> None
      /\ find_key "preferred_categories" preferences_json = None
      /\ e = KeyError "preferred_categories"
      /\ fst (main programs_json preferences_json top_n) = [])
  \/ ((exists msg, e = ValueError msg)
      /\ lines_of (fst (main programs_json preferences_json top_n)) = [])
  \/ (exists key, In key ["name"; "category"; "venue"] /\ e = KeyError key).
Proof.
  intros H. destruct (find_key "programs" programs_json) as [programs|] eqn:Hp.
  - destruct (find_key "preferred_categories" preferences_json) as [categories|] eqn:Hc.
    + rewrite (main_with_keys _ _ _ _ _ Hp Hc) in *.
      pose proof (recommend_cases programs categories (top_n_argument top_n)) as Hcases.
      unfold recommend in Hcases.
      destruct (generate_recommendations programs categories (top_n_argument top_n))
        as [notes [recommended|e']] eqn:G; simpl in *.
      * right; right; right.
        destruct recommended as [|p rest]; [discriminate|].
        apply print_programs_raised in H as [ -> | [ -> | -> ] ]; eexists;
          (split; [|reflexivity]); simpl; auto.
      * injection H as <-. right; right; left. split; [|apply lines_of_notes].
        destruct Hcases as [[_ Hr]|[(_ & _ & msg & Hr)|[_ Hr]]]; try discriminate.
        injection Hr as ->. eauto.
    + right; left. unfold main, load_program_data, load_user_preferences, getkey in *.
      rewrite Hp, Hc in *. simpl in H. injection H as <-.
      repeat split; try reflexivity; discriminate.
  - left. unfold main, load_program_data, getkey in *. rewrite Hp in *. simpl in H.
    injection H as <-. repeat split; reflexivity.
Qed.

Lemma main_exceptions_witness :
  snd (main [("programs", [nameless])] fitness_json None) = Raised (KeyError "name")
  /\ exists key, In key ["name"; "category"; "venue"] /\ KeyError "name" = KeyError key.
Proof.
  assert (snd (main [("programs", [nameless])] fitness_json None) = Raised (KeyError "name"))
    as H.
  { rewrite (main_with_keys _ _ None [nameless] ["fitness"]) by reflexivity.
    rewrite (generate_recommendations_returned [nameless] ["fitness"])
      by (vm_compute; discriminate).
    replace (category_matches [nameless] ["fitness"]) with [nameless]
      by (vm_compute; reflexivity).
    replace (slice_to [nameless] (top_n_argument None)) with [nameless] by reflexivity.
    simpl map.
    assert (best_index [nameless] nameless < 1)%nat as Hlt
      by (apply (best_index_lt [nameless]); discriminate).
    replace (best_index [nameless] nameless) with 0%nat by lia. reflexivity. }
  split; [exact H|].
  destruct (main_exceptions _ _ _ _ H) as [(Hn & _)|[(_ & Hn & _)|[([msg Hm] & _)|Hk]]];
    try discriminate. exact Hk.
Defined.

Lemma print_recommendations_lines_le (recommended : list program) :
  (List.length (fst (print_recommendations recommended))
   <= Nat.max 1 (List.length recommended))%nat.
Proof.
  destruct recommended as [|p rest]; [simpl; lia|].
  change (print_recommendations (p :: rest)) with (print_programs (p :: rest)).
  rewrite print_programs_lines, length_map.
  assert (forall l, List.length (printable_prefix l) <= List.length l)%nat as H.
  { induction l as [|q l IH]; simpl; [lia|]. destruct (printableb q); simpl; lia. }
  specialize (H (p :: rest)). lia.
Qed.

(** With a [top_n] that is not negative, [main] prints at most [top_n] lines
    (one line when [top_n] is zero: "No recommendations available."); without
    [--top_n], at most five. *)
Theorem main_prints_at_most_top_n
  (programs_json : document (list program)) (preferences_json : document (list string))
  (top_n : option Z) :
  (0 <= top_n_argument top_n)%Z ->
  (Z.of_nat (List.length (lines_of (fst (main programs_json preferences_json top_n))))
   <= Z.max 1 (top_n_argument top_n))%Z.
Proof.
  intros Hn. destruct (find_key "programs" programs_json) as [programs|] eqn:Hp.
  - destruct (find_key "preferred_categories" preferences_json) as [categories|] eqn:Hc.
    + rewrite (main_with_keys _ _ _ _ _ Hp Hc).
      pose proof (recommend_cases programs categories (top_n_argument top_n)) as Hcases.
      unfold recommend in Hcases.
      destruct (generate_recommendations programs categories (top_n_argument top_n))
        as [notes [recommended|e']] eqn:G; cbv beta iota; cbn [fst].
      * rewrite lines_of_notes_lines.
        assert (Z.of_nat (List.length recommended) <= top_n_argument top_n)%Z as Hlen.
        { simpl in Hcases.
          destruct Hcases as [[_ Hr]|[(_ & _ & msg & Hr)|[_ Hr]]]; try discriminate;
            injection Hr as ->; [simpl; lia|].
          rewrite length_map, (slice_to_nonneg _ _ Hn), length_firstn. lia. }
        pose proof (print_recommendations_lines_le recommended). lia.
      * rewrite lines_of_notes. simpl. lia.
    + unfold main, load_program_data, load_user_preferences, getkey.
      rewrite Hp, Hc. simpl. lia.
  - unfold main, load_program_data, getkey. rewrite Hp. simpl. lia.
Qed.

Lemma main_prints_at_most_top_n_witness :
  (Z.of_nat (List.length (lines_of (fst (main scenario_A_json fitness_json None)))) <= 5)%Z.
Proof.
  apply (main_prints_at_most_top_n scenario_A_json fitness_json None). simpl. lia.
Defined.

(** ** Construction and [add_program] *)

Section SharedLists.

Import Objects.

Lemma deref_assign_same (h : heap) (r : ref) (l : list program) :
  (r < List.length h)%nat -> deref (assign h r l) r = l.
Proof.
  unfold deref. revert r; induction h as [|x h IH]; intros [|r] Hr; simpl in *; try lia.
  - reflexivity.
  - apply IH. lia.
Qed.

Lemma deref_assign_other (h : heap) (r r' : ref) (l : list program) :
  r' <> r -> deref (assign h r l) r' = deref h r'.
Proof.
  unfold deref. revert r r'; induction h as [|x h IH]; intros [|r] [|r'] Hneq; simpl;
    try reflexivity; try contradiction.
  apply IH. lia.
Qed.

Lemma assign_length (h : heap) (r : ref) (l : list program) :
  List.length (assign h r l) = List.length h.
Proof.
  revert r; induction h as [|x h IH]; intros [|r]; simpl; try reflexivity.
  f_equal. apply IH.
Qed.

Lemma deref_app_old (h : heap) (l : list program) (r : ref) :
  (r < List.length h)%nat -> deref (h ++ [l]) r = deref h r.
Proof. intros Hr. unfold deref. apply app_nth1, Hr. Qed.

Lemma deref_app_new (h : heap) (l : list program) : deref (h ++ [l]) (List.length h) = l.
Proof. unfold deref. rewrite app_nth2, Nat.sub_diag by lia. reflexivity. Qed.

Lemma deref_nonempty_lt (h : heap) (r : ref) : deref h r <> [] -> (r < List.length h)%nat.
Proof.
  intros H. destruct (Nat.lt_ge_cases r (List.length h)) as [Hlt|Hge]; [assumption|].
  exfalso. apply H. unfold deref. apply nth_overflow, Hge.
Qed.

End SharedLists.

(** A recommender built on a list that is not empty shares it with the
    caller: the heap is unchanged by the construction, the recommender reads
    the caller's list, and [add_program] makes the caller's list one program
    longer. *)
Theorem init_shares_nonempty_list
  (h : Objects.heap) (r : Objects.ref) (p : program) :
  Objects.deref h r <> [] ->
  let '(h1, self) := Objects.init h (Some r) in
  h1 = h
  /\ Objects.programs_ self = r
  /\ Objects.deref (Objects.add_program h1 self p) r = Objects.deref h r ++ [p].
Proof.
  intros Hne. unfold Objects.init.
  destruct (Objects.deref h r) as [|q qs] eqn:E; [contradiction|].
  split; [reflexivity|]. split; [reflexivity|].
  unfold Objects.add_program. simpl. rewrite E.
  apply deref_assign_same, deref_nonempty_lt. rewrite E. discriminate.
Qed.

Lemma init_shares_nonempty_list_witness :
  Objects.deref (Objects.add_program [scenario_A] {| Objects.programs_ := 0 |} nameless) 0
  = scenario_A ++ [nameless].
Proof.
  apply (init_shares_nonempty_list [scenario_A] 0 nameless). discriminate.
Defined.

(** A recommender built without a list, or on an empty list, has a new list
    of its own: [add_program] leaves every list the caller had as it was
    (the empty list passed in stays empty), and the recommender's catalog
    becomes the one added program. *)
Theorem init_does_not_share_empty_list
  (h : Objects.heap) (programs : option Objects.ref) (p : program) :
  (forall r, programs = Some r -> Objects.deref h r = []) ->
  let '(h1, self) := Objects.init h programs in
  Objects.programs_ self = List.length h
  /\ Objects.deref (Objects.add_program h1 self p) (Objects.programs_ self) = [p]
  /\ forall r, (r < List.length h)%nat ->
       Objects.deref (Objects.add_program h1 self p) r = Objects.deref h r.
Proof.
  intros Hempty.
  assert (Objects.init h programs
          = (h ++ [[]], {| Objects.programs_ := List.length h |})) as ->.
  { unfold Objects.init. destruct programs as [r|]; [|reflexivity].
    rewrite (Hempty r eq_refl). reflexivity. }
  split; [reflexivity|]. unfold Objects.add_program. simpl.
  rewrite deref_app_new. simpl. split.
  - apply deref_assign_same. rewrite length_app. simpl. lia.
  - intros r Hr. rewrite deref_assign_other by lia. apply deref_app_old, Hr.
Qed.

Lemma init_does_not_share_empty_list_witness :
  let '(h1, self) := Objects.init [[]] (Some 0%nat) in
  Objects.programs_ self = 1%nat
  /\ Objects.deref (Objects.add_program h1 self yoga) (Objects.programs_ self) = [yoga]
  /\ forall r, (r < 1)%nat -> Objects.deref (Objects.add_program h1 self yoga) r
                              = Objects.deref [[]] r.
Proof.
  apply (init_does_not_share_empty_list [[]] (Some 0%nat) yoga).
  intros r Hr. injection Hr as <-. reflexivity.
Defined.

Lemma add_programs_fold
  (ps : list program) (h : Objects.heap) (self : Objects.ProgramRecommender) :
  (Objects.programs_ self < List.length h)%nat ->
  let h' := fold_left (fun h0 p => Objects.add_program h0 self p) ps h in
  Objects.deref h' (Objects.programs_ self) = Objects.deref h (Objects.programs_ self) ++ ps
  /\ forall r, r <> Objects.programs_ self -> Objects.deref h' r = Objects.deref h r.
Proof.
  revert h; induction ps as [|p ps IH]; intros h Hlt; simpl.
  - rewrite app_nil_r. split; [reflexivity|]. intros; reflexivity.
  - assert (Objects.programs_ self < List.length (Objects.add_program h self p))%nat as Hlt'
      by (unfold Objects.add_program; rewrite assign_length; exact Hlt).
    destruct (IH _ Hlt') as [IH1 IH2]. split.
    + rewrite IH1. unfold Objects.add_program at 1.
      rewrite (deref_assign_same _ _ _ Hlt), <- app_assoc. reflexivity.
    + intros r Hr. rewrite (IH2 r Hr). unfold Objects.add_program.
      apply deref_assign_other, Hr.
Qed.

(** A recommender built without a list and filled with [add_program] holds
    the programs in the order they were added, recommends as the method does
    on that list, and leaves the lists that existed before untouched. *)
Theorem add_program_builds_catalog_in_order
  (h : Objects.heap) (ps : list program) (user_categories : list string) (top_n : Z) :
  let '(h1, self) := Objects.init h None in
  let h2 := fold_left (fun h0 p => Objects.add_program h0 self p) ps h1 in
  Objects.deref h2 (Objects.programs_ self) = ps
  /\ Objects.generate_recommendations h2 self user_categories top_n
     = generate_recommendations ps user_categories top_n
  /\ forall r, (r < List.length h)%nat -> Objects.deref h2 r = Objects.deref h r.
Proof.
  simpl.
  destruct (add_programs_fold ps (h ++ [[]]) {| Objects.programs_ := List.length h |})
    as [H1 H2]; [rewrite length_app; simpl; lia|].
  simpl in H1, H2. rewrite deref_app_new in H1. simpl in H1.
  split; [exact H1|]. split.
  - unfold Objects.generate_recommendations. simpl. rewrite H1. reflexivity.
  - intros r Hr. rewrite H2 by lia. apply deref_app_old, Hr.
Qed.

(** ** When the vectorizer has no vocabulary *)

Lemma vocab_insert_In (t u : string) (v : list string) :
  In u (Text.vocab_insert t v) <-> u = t \/ In u v.
Proof.
  induction v as [|w v IH]; simpl; [intuition congruence|].
  destruct (String.eqb t w) eqn:E.
  - apply String.eqb_eq in E. subst w. simpl. intuition congruence.
  - destruct (String.ltb t w); simpl; [intuition congruence|].
    rewrite IH. intuition congruence.
Qed.

Lemma fold_vocab_insert_In (tokens v : list string) (u : string) :
  In u (fold_left (fun v0 t => Text.vocab_insert t v0) tokens v) <-> In u tokens \/ In u v.
Proof.
  revert v; induction tokens as [|t tokens IH]; intros v; simpl; [tauto|].
  rewrite IH, vocab_insert_In. intuition congruence.
Qed.

Lemma build_vocabulary_In (analyzed : list (list string)) (u : string) :
  In u (Text.build_vocabulary analyzed) <-> exists tokens, In tokens analyzed /\ In u tokens.
Proof.
  unfold Text.build_vocabulary. rewrite fold_vocab_insert_In, in_concat. simpl.
  split; [intros [H|[]]; exact H|auto].
Qed.

Lemma vocabulary_of_In (programs : list program) (u : string) :
  In u (vocabulary_of programs)
  <-> exists p, In p programs /\ In u (Text.analyze (description p)).
Proof.
  unfold vocabulary_of. rewrite build_vocabulary_In. split.
  - intros (tokens & Ht & Hu). rewrite map_map in Ht.
    apply in_map_iff in Ht as (p & <- & Hp). eauto.
  - intros (p & Hp & Hu). exists (Text.analyze (description p)). split; [|exact Hu].
    rewrite map_map. apply in_map_iff. eauto.
Qed.

(** On a catalog that is not empty, [recommend] raises (the [ValueError] of
    the vectorizer) exactly when no description holds a token: every word of
    every description is a stop word or has a single character. *)
Theorem recommend_raises_iff_no_token
  (programs : list program) (user_categories : list string) (top_n : Z) :
  programs <> [] ->
  ((exists e, recommend programs user_categories top_n = Raised e)
   <-> Forall (fun p => Text.analyze (description p) = []) programs).
Proof.
  intros Hne.
  assert (vocabulary_of programs = []
          <-> Forall (fun p => Text.analyze (description p) = []) programs) as Hvoc.
  { split.
    - intros Hv. apply Forall_forall. intros p Hp.
      destruct (Text.analyze (description p)) as [|u tokens] eqn:E; [reflexivity|].
      assert (In u (vocabulary_of programs)) as Hu.
      { apply vocabulary_of_In. exists p. split; [exact Hp|]. rewrite E. left. reflexivity. }
      rewrite Hv in Hu. destruct Hu.
    - intros Hall. destruct (vocabulary_of programs) as [|u v] eqn:E; [reflexivity|].
      assert (In u (vocabulary_of programs)) as Hu by (rewrite E; left; reflexivity).
      apply vocabulary_of_In in Hu as (p & Hp & Hu).
      rewrite Forall_forall in Hall. rewrite (Hall p Hp) in Hu. destruct Hu. }
  destruct (recommend_cases programs user_categories top_n)
    as [[He Hr]|[(_ & Hv & msg & Hr)|[Hv Hr]]]; [contradiction| |]; rewrite Hr.
  - split; [intros _; apply Hvoc, Hv|eauto].
  - split; [intros [e He]; discriminate|]. intros H. apply Hvoc in H. contradiction.
Qed.

Lemma recommend_raises_iff_no_token_witness :
  exists e, recommend [stop_words_only] ["and"] 5 = Raised e.
Proof.
  apply (proj2 (recommend_raises_iff_no_token [stop_words_only] ["and"] 5 ltac:(discriminate))).
  repeat constructor.
Defined.
